(** * RAG chatbot backend: document lifecycle and retrieval-query pipeline

    A shallow embedding of the Python backend
    ([utils/pdf_loader.py], [g_chain.py], [document_handler.py], [main.py])
    and the properties of its document registry, chunk filter, source
    truncation and error signalling.

    Conventions of the embedding:
    - a Python [str] is the list of its code points ([list N]), so [len] is
      [length] and slicing is [take];
    - a Python [dict] is an association list in insertion order: assigning to
      a key that is present replaces the value where it stands, assigning to
      a new key appends;
    - exceptions are values of [exn]; a call either returns or raises, and
      keeps the state it reached in both cases;
    - the outside world (PDF library, text splitter, OpenAI, file system
      errors) is an explicit argument of each operation: the operation is a
      function of what the outside world answers. *)

From Stdlib Require Import NArith ZArith String Ascii DecimalString Sorted.
From stdpp Require Import gmap list.

Local Open Scope N_scope.

(** ** Python strings *)

Abbreviation str := (list N).

(** An ASCII literal of the source as a list of code points. *)
Definition lit (s : string) : str := N_of_ascii <$> list_ascii_of_string s.
Arguments lit : simpl never.

(** [str.isspace] on one code point, which is also what [str.strip()] removes
    and what [\s] matches in a [str] pattern. *)
Definition isspace (c : N) : bool :=
  ((9 <=? c) && (c <=? 13)) || ((28 <=? c) && (c <=? 32))
  || (c =? 133) || (c =? 160) || (c =? 5760)
  || ((8192 <=? c) && (c <=? 8202))
  || (c =? 8232) || (c =? 8233) || (c =? 8239) || (c =? 8287) || (c =? 12288).

Fixpoint lstrip (s : str) : str :=
  match s with
  | c :: s' => if isspace c then lstrip s' else s
  | [] => []
  end.

Definition rstrip (s : str) : str := reverse (lstrip (reverse s)).

(** [s.strip()] *)
Definition strip (s : str) : str := rstrip (lstrip s).

(** Truth value of a string: [not s] holds for the empty string only. *)
Definition truthy (s : str) : bool :=
  match s with [] => false | _ => true end.

(** [s.replace(old, new)] for a two-character [old]: occurrences are found
    from the left and do not overlap. *)
Fixpoint replace2 (a b : N) (new : str) (s : str) : str :=
  match s with
  | x :: ((y :: rest) as tl) =>
      if (x =? a) && (y =? b) then new ++ replace2 a b new rest
      else x :: replace2 a b new tl
  | _ => s
  end.

(** [str(n)] for a natural number. *)
Definition str_of_nat (n : nat) : str :=
  lit (NilZero.string_of_uint (Nat.to_uint n)).

(** ** Exceptions *)

(** The subclasses of [Exception] the backend distinguishes in its [except]
    clauses. [AuthenticationError] and [RateLimitError] are subclasses of
    [OpenAIError]; [OpenAIError] stands for the remaining ones. [ValueError]
    stands for [ValueError] and its subclasses, [OtherException] for every
    exception that no clause names. *)
Inductive exn : Type :=
| AuthenticationError (msg : str)
| RateLimitError (msg : str)
| OpenAIError (msg : str)
| ValueError (msg : str)
| FileNotFoundError (msg : str)
| HTTPException (status_code : Z) (detail : str)
| OtherException (msg : str).

Inductive result (A : Type) : Type :=
| Ret (a : A)
| Raise (e : exn).
Arguments Ret {A} a.
Arguments Raise {A} e.

(** [isinstance(e, ValueError)] *)
Definition is_ValueError (e : exn) : bool :=
  match e with ValueError _ => true | _ => false end.

(** ** Python dictionaries, in insertion order *)

Section Dict.
Context {V : Type}.

Abbreviation dict := (list (str * V)).

(** [d[k]], [None] standing for [KeyError] *)
Fixpoint dict_get (k : str) (d : dict) : option V :=
  match d with
  | [] => None
  | (k', v) :: d' => if decide (k' = k) then Some v else dict_get k d'
  end.

(** [k in d] *)
Definition dict_mem (k : str) (d : dict) : bool :=
  match dict_get k d with Some _ => true | None => false end.

(** [d[k] = v]: a key that is present keeps its position. *)
Fixpoint dict_set (k : str) (v : V) (d : dict) : dict :=
  match d with
  | [] => [(k, v)]
  | (k', v') :: d' =>
      if decide (k' = k) then (k, v) :: d' else (k', v') :: dict_set k v d'
  end.

(** [del d[k]] for a key that is present *)
Fixpoint dict_del (k : str) (d : dict) : dict :=
  match d with
  | [] => []
  | (k', v') :: d' =>
      if decide (k' = k) then dict_del k d' else (k', v') :: dict_del k d'
  end.

(** [list(d.keys())] *)
Definition dict_keys (d : dict) : list str := d.*1.
End Dict.

(** ** The file system and the calls to the providers *)

(** One record of [processed_docs]. *)
Record doc_info : Type := {
  file_path : str;
  vectorstore_path : str;
  chunks_count : nat;
  status : str
}.

(** What a path holds: a pickled vector store (the chunks it was built
    from), the pickled [processed_docs], or anything else (an uploaded
    document, a partly written file). *)
Inductive file : Type :=
| IndexFile (chunks : list str)
| MetaFile (docs : list (str * doc_info))
| RawFile.

(** Calls that reach the OpenAI provider. *)
Inductive event : Type :=
| EvEmbed (chunks : list str)
| EvQA (question : str) (index : list str).

(** The handler's [processed_docs], the disk, and the provider calls made so
    far (oldest first). *)
Record state : Type := {
  processed_docs : list (str * doc_info);
  disk : gmap str file;
  calls : list event
}.

Definition set_docs (d : list (str * doc_info)) (s : state) : state :=
  {| processed_docs := d; disk := disk s; calls := calls s |}.
Definition set_disk (f : gmap str file) (s : state) : state :=
  {| processed_docs := processed_docs s; disk := f; calls := calls s |}.
Definition log_call (e : event) (s : state) : state :=
  {| processed_docs := processed_docs s; disk := disk s;
     calls := calls s ++ [e] |}.

(** What the outside world answers to [open(path, 'wb')] followed by
    [pickle.dump]: the file is written; or [open] raises and the disk is as
    before; or [dump] raises and leaves a partly written file. *)
Inductive write_outcome : Type :=
| Written
| OpenFails (e : exn)
| DumpFails (e : exn).

(** [os.remove] of an existing path: removed, or an error and the file stays. *)
Inductive remove_outcome : Type :=
| Removed
| RemoveFails (e : exn).

(** Reading an existing file: its content, or an error. *)
Inductive read_outcome : Type :=
| ReadOk
| ReadFails (e : exn).

(** ** Computations: state passing with exceptions *)

Definition M (A : Type) : Type := state -> result A * state.

Definition ret {A} (a : A) : M A := fun s => (Ret a, s).
Definition raise {A} (e : exn) : M A := fun s => (Raise e, s).
Definition bind {A B} (m : M A) (k : A -> M B) : M B :=
  fun s => match m s with
           | (Ret a, s') => k a s'
           | (Raise e, s') => (Raise e, s')
           end.
(** [try: m  except ... as e: h e] *)
Definition try_except {A} (m : M A) (h : exn -> M A) : M A :=
  fun s => match m s with
           | (Ret a, s') => (Ret a, s')
           | (Raise e, s') => h e s'
           end.
Definition get_state : M state := fun s => (Ret s, s).
Definition modify (f : state -> state) : M unit := fun s => (Ret tt, f s).
Definition lift {A} (r : result A) : M A := fun s => (r, s).

Notation "x <- m ;; k" := (bind m (fun x => k))
  (at level 100, m at next level, right associativity).
Notation "m ;;; k" := (bind m (fun _ => k))
  (at level 100, right associativity).

(** The clauses [except ValueError as e: raise e] and
    [except Exception as e: return False], in this order. *)
Definition reraise_value_error (e : exn) : M bool :=
  if is_ValueError e then raise e else ret false.

(** [open(path, 'wb')] and [pickle.dump(content, f)] *)
Definition write_file (w : write_outcome) (path : str) (content : file)
    : M unit :=
  match w with
  | Written => modify (fun s => set_disk (<[path := content]> (disk s)) s)
  | OpenFails e => raise e
  | DumpFails e =>
      modify (fun s => set_disk (<[path := RawFile]> (disk s)) s) ;;;
      raise e
  end.

(** [os.path.exists(path)] *)
Definition path_exists (path : str) : M bool :=
  fun s => (Ret (bool_decide (is_Some (disk s !! path))), s).

(** [if os.path.exists(path): os.remove(path)] *)
Definition remove_if_exists (r : remove_outcome) (path : str) : M unit :=
  ex <- path_exists path ;;
  if ex : bool then
    match r with
    | Removed => modify (fun s => set_disk (delete path (disk s)) s)
    | RemoveFails e => raise e
    end
  else ret tt.

(** ** utils/pdf_loader.py *)

Module PDFLoader.

(** [re.sub(r'\s+', ' ', text)]: every maximal run of whitespace becomes one
    space. [in_run] tells that the previous character was whitespace. *)
Fixpoint sub_whitespace (in_run : bool) (text : str) : str :=
  match text with
  | [] => []
  | c :: rest =>
      if isspace c then
        if in_run then sub_whitespace true rest
        else 32 :: sub_whitespace true rest
      else c :: sub_whitespace false rest
  end.

(** The class [[\x00-\x08\x0b\x0c\x0e-\x1f\x7f-\xff]] *)
Definition special_char (c : N) : bool :=
  (c <=? 8) || (c =? 11) || (c =? 12)
  || ((14 <=? c) && (c <=? 31)) || ((127 <=? c) && (c <=? 255)).

Definition _clean_text (text : str) : str :=
  let text := sub_whitespace false text in
  let text := filter (fun c => negb (special_char c)) text in
  let text := replace2 10 45 [10; 8226; 32] text in
  let text := replace2 32 32 [32] text in
  strip text.

(** The loop of [extract_text_from_pdf] over the pages still to read;
    [page_num] is the index of the first of them. *)
Fixpoint extract_pages (page_num : nat) (pages : list str) (text : str) : str :=
  match pages with
  | [] => text
  | page :: rest =>
      let page_text := _clean_text page in
      let text :=
        if truthy (strip page_text) then
          (text ++ ([10] ++ lit "--- Page " ++ str_of_nat (page_num + 1)
                         ++ lit " ---" ++ [10]))
          ++ (page_text ++ [10])
        else text in
      extract_pages (S page_num) rest text
  end.

(** [fitz] is what PyMuPDF answers for the file: the text of each page, or an
    exception. *)
Definition extract_text_from_pdf (fitz : result (list str)) : result str :=
  match fitz with
  | Ret pages => Ret (extract_pages 0 pages [])
  | Raise e => Raise e
  end.

Section Splitter.
(** [RecursiveCharacterTextSplitter.split_text] as the loader configures it
    (LangChain code). *)
Variable split_text : str -> result (list str).

Definition split_text_into_chunks (text : str) : result (list str) :=
  match split_text text with
  | Ret chunks =>
      Ret (filter (fun chunk => (50 <? length (strip chunk))%nat) chunks)
  | Raise e => Raise e
  end.

Definition load_and_split (fitz : result (list str)) : result (list str) :=
  match extract_text_from_pdf fitz with
  | Raise e => Raise e
  | Ret text =>
      if negb (truthy (strip text)) then Ret []
      else
        match split_text_into_chunks text with
        | Raise e => Raise e
        | Ret [] => Ret []
        | Ret chunks => Ret chunks
        end
  end.
End Splitter.

(** One entry of [extract_text_by_page]. *)
Record page_entry : Type := {
  page_number : nat;
  text : str
}.

(** The loop of [extract_text_by_page] over the pages still to read. *)
Fixpoint pages_from (page_num : nat) (pages : list str) : list page_entry :=
  match pages with
  | [] => []
  | page :: rest =>
      let page_text := _clean_text page in
      if truthy (strip page_text) then
        {| page_number := page_num + 1; text := page_text |}
          :: pages_from (S page_num) rest
      else pages_from (S page_num) rest
  end.

(** Any exception is logged and the empty list is returned. *)
Definition extract_text_by_page (fitz : result (list str)) : list page_entry :=
  match fitz with
  | Ret pages => pages_from 0 pages
  | Raise _ => []
  end.

End PDFLoader.

(** ** g_chain.py *)

Module RAGChain.

Definition auth_msg : str :=
  lit "OpenAI authentication failed. Please check your API key.".
Definition quota_msg : str :=
  lit "OpenAI quota exceeded. Please try again later.".
Definition service_msg : str :=
  lit "OpenAI service error. Please try again later.".

(** The three [except] clauses wrapped around a provider call. *)
Definition openai_errors {A} (m : M A) : M A :=
  try_except m (fun e =>
    match e with
    | AuthenticationError _ => raise (ValueError auth_msg)
    | RateLimitError _ => raise (ValueError quota_msg)
    | OpenAIError _ => raise (ValueError service_msg)
    | _ => raise e
    end).

(** [embed] is what [FAISS.from_documents] answers, [w] what happens when the
    store is pickled to [vectorstore_path]. *)
Definition create_vectorstore (embed : result unit) (w : write_outcome)
    (text_chunks : list str) (vectorstore_path : str) : M bool :=
  try_except
    (openai_errors (modify (log_call (EvEmbed text_chunks)) ;;; lift embed) ;;;
     write_file w vectorstore_path (IndexFile text_chunks) ;;;
     ret true)
    reraise_value_error.

(** A LangChain [Document]. *)
Record Document : Type := {
  page_content : str;
  metadata : list (str * str)
}.

(** What the [RetrievalQA] chain returns: the key [result] and, when
    present, the key [source_documents]. *)
Record qa_result : Type := {
  qa_answer : str;
  source_documents : option (list Document)
}.

Record source : Type := {
  content : str;
  source_metadata : list (str * str)
}.

Record response : Type := {
  answer : str;
  sources : list source;
  question : str
}.

(** [doc.page_content[:200] + "..." if len(doc.page_content) > 200
     else doc.page_content] *)
Definition source_content (page_content : str) : str :=
  if (200 <? length page_content)%nat then take 200 page_content ++ lit "..."
  else page_content.

Section Query.
(** Message of the [FileNotFoundError] that [open] raises for a path. *)
Variable enoent_msg : str -> str.

(** [open(path, 'rb')] and [pickle.load]: the chunks of the pickled store. *)
Definition load_vectorstore (r : read_outcome) (path : str) : M (list str) :=
  fun s =>
    match disk s !! path with
    | None => (Raise (FileNotFoundError (enoent_msg path)), s)
    | Some f =>
        match r, f with
        | ReadFails e, _ => (Raise e, s)
        | ReadOk, IndexFile chunks => (Ret chunks, s)
        | ReadOk, _ => (Raise (OtherException (lit "not a vector store")), s)
        end
    end.

(** [qa] is what the retrieval chain answers to the question. *)
Definition query (r : read_outcome) (qa : result qa_result)
    (question vectorstore_path : str) : M response :=
  try_except
    (vectorstore <- load_vectorstore r vectorstore_path ;;
     result <- openai_errors
                 (modify (log_call (EvQA question vectorstore)) ;;; lift qa) ;;
     let sources :=
       (fun doc => {| content := source_content (page_content doc);
                      source_metadata := metadata doc |})
         <$> default [] (source_documents result) in
     ret {| answer := qa_answer result; sources := sources;
            question := question |})
    (fun e => raise e).
(** One entry of [get_similar_chunks]; [similarity_score] is always
    [None]. *)
Record similar_chunk : Type := {
  chunk_content : str;
  chunk_metadata : list (str * str);
  similarity_score : option N
}.

(** [search] is what [vectorstore.similarity_search(question, k=k)]
    answers. The function is called by no other function of the backend;
    its provider call is not recorded in [calls]. *)
Definition get_similar_chunks (r : read_outcome)
    (search : result (list Document)) (question vectorstore_path : str)
    (k : nat) : M (list similar_chunk) :=
  try_except
    (vectorstore <- load_vectorstore r vectorstore_path ;;
     similar_docs <- lift search ;;
     ret ((fun doc => {| chunk_content := page_content doc;
                         chunk_metadata := metadata doc;
                         similarity_score := None |}) <$> similar_docs))
    (fun _ => ret []).
End Query.

End RAGChain.

(** ** document_handler.py *)

Module DocumentHandler.

Definition metadata_path : str := lit "vectorstore/processed_docs_metadata.pkl".

(** What the outside world answers during one [process_document]. *)
Record process_env : Type := {
  fitz : result (list str);
  embed : result unit;
  index_write : write_outcome;
  meta_write : write_outcome
}.

(** What the outside world answers during one [query_document]. *)
Record query_env : Type := {
  meta_read : read_outcome;
  index_read : read_outcome;
  qa : result RAGChain.qa_result
}.

(** What the outside world answers during one [delete_document]. *)
Record delete_env : Type := {
  rm_vectorstore : remove_outcome;
  rm_file : remove_outcome;
  del_meta_write : write_outcome
}.

Record response : Type := {
  answer : str;
  sources : list RAGChain.source;
  document : str
}.

Definition _save_metadata (w : write_outcome) : M unit :=
  try_except
    (s <- get_state ;;
     write_file w metadata_path (MetaFile (processed_docs s)))
    (fun _ => ret tt).

(** [open(metadata_path, 'rb')] and [pickle.load] *)
Definition read_metadata (r : read_outcome) : M (list (str * doc_info)) :=
  fun s =>
    match r, disk s !! metadata_path with
    | ReadFails e, _ => (Raise e, s)
    | ReadOk, Some (MetaFile docs) => (Ret docs, s)
    | ReadOk, _ => (Raise (OtherException (lit "not a metadata file")), s)
    end.

Definition _load_metadata (r : read_outcome) : M unit :=
  try_except
    (ex <- path_exists metadata_path ;;
     if ex : bool then
       docs <- read_metadata r ;;
       modify (set_docs docs)
     else ret tt)
    (fun _ => modify (set_docs [])).

(** [if not self.processed_docs: self._load_metadata()] *)
Definition load_if_empty (r : read_outcome) : M unit :=
  s <- get_state ;;
  match processed_docs s with
  | [] => _load_metadata r
  | _ => ret tt
  end.

(** The value of [filename] after
    [if not filename and self.processed_docs: filename = list(keys)[-1]];
    [None] and the empty string are the values for which [not filename]
    holds. *)
Definition resolved_filename (filename : option str)
    (docs : list (str * doc_info)) : option str :=
  match filename with
  | Some ((_ :: _) as f) => Some f
  | _ => last (dict_keys docs)
  end.

Section Handler.
Variable split_text : str -> result (list str).
Variable enoent_msg : str -> str.
(** [repr] of a list of strings, as an f-string renders it. *)
Variable repr_keys : list str -> str.

Definition process_document (env : process_env) (file_path filename : str)
    : M bool :=
  try_except
    (text_chunks <- lift (PDFLoader.load_and_split split_text (fitz env)) ;;
     match text_chunks with
     | [] => ret false
     | _ =>
         let vectorstore_path :=
           lit "vectorstore/" ++ filename ++ lit "_vectorstore.pkl" in
         success <- RAGChain.create_vectorstore (embed env) (index_write env)
                      text_chunks vectorstore_path ;;
         if success : bool then
           modify (fun s =>
             set_docs (dict_set filename
                         {| file_path := file_path;
                            vectorstore_path := vectorstore_path;
                            chunks_count := length text_chunks;
                            status := lit "processed" |}
                         (processed_docs s)) s) ;;;
           _save_metadata (meta_write env) ;;;
           ret true
         else ret false
     end)
    reraise_value_error.

(** [filename] is [None] when the caller gives none. *)
Definition query_document (env : query_env) (question : str)
    (filename : option str) : M response :=
  try_except
    (load_if_empty (meta_read env) ;;;
     s <- get_state ;;
     let filename := resolved_filename filename (processed_docs s) in
     match filename with
     | Some ((_ :: _) as filename) =>
         match dict_get filename (processed_docs s) with
         | Some doc_info =>
             let vectorstore_path := vectorstore_path doc_info in
             ex <- path_exists vectorstore_path ;;
             if ex : bool then
               response <- RAGChain.query enoent_msg (index_read env) (qa env)
                             question vectorstore_path ;;
               ret {| answer := RAGChain.answer response;
                      sources := RAGChain.sources response;
                      document := filename |}
             else
               raise (FileNotFoundError
                        (lit "Vectorstore missing for document: " ++ filename))
         | None =>
             raise (ValueError (lit "Document not found. Available: "
                                ++ repr_keys (dict_keys (processed_docs s))))
         end
     | _ =>
         raise (ValueError (lit "Document not found. Available: "
                            ++ repr_keys (dict_keys (processed_docs s))))
     end)
    (fun e => raise e).

Definition get_processed_documents (r : read_outcome) : M (list str) :=
  load_if_empty r ;;;
  s <- get_state ;;
  ret (dict_keys (processed_docs s)).

Definition delete_document (env : delete_env) (filename : str) : M bool :=
  try_except
    (s <- get_state ;;
     match dict_get filename (processed_docs s) with
     | None => ret false
     | Some doc_info =>
         remove_if_exists (rm_vectorstore env) (vectorstore_path doc_info) ;;;
         remove_if_exists (rm_file env) (file_path doc_info) ;;;
         modify (fun s => set_docs (dict_del filename (processed_docs s)) s) ;;;
         _save_metadata (del_meta_write env) ;;;
         ret true
     end)
    (fun _ => ret false).
End Handler.

End DocumentHandler.

(** ** main.py *)

Module Main.

Record QueryRequest : Type := {
  question : str;
  filename : option str
}.

(** Body of a successful answer of [POST /query]. *)
Record query_body : Type := {
  body_question : str;
  body_answer : str;
  body_sources : list RAGChain.source;
  body_filename : option str
}.

Fixpoint startswith (prefix s : str) : bool :=
  match prefix, s with
  | [], _ => true
  | a :: prefix', b :: s' => (a =? b) && startswith prefix' s'
  | _ :: _, [] => false
  end.

(** [needle in s] *)
Fixpoint contains (needle s : str) : bool :=
  startswith needle s
  || match s with
     | [] => false
     | _ :: s' => contains needle s'
     end.

Section Endpoints.
Variable enoent_msg : str -> str.
Variable repr_keys : list str -> str.
(** [str.lower] *)
Variable str_lower : str -> str.
(** [eval] of a message that starts with a brace: it raises, or gives a
    dictionary, of which [error_dict.get("error")] is kept. *)
Variable eval_error : str -> result (option str).
(** [str(e)] for an [HTTPException] *)
Variable str_http : Z -> str -> str.

(** [str(e)] *)
Definition str_exn (e : exn) : str :=
  match e with
  | AuthenticationError msg | RateLimitError msg | OpenAIError msg
  | ValueError msg | FileNotFoundError msg | OtherException msg => msg
  | HTTPException status_code detail => str_http status_code detail
  end.

(** The clause [except ValueError as e] of [query_document]. *)
Definition on_value_error (e : exn) : M query_body :=
  error_dict <- lift (if startswith (lit "{") (str_exn e)
                      then eval_error (str_exn e)
                      else Ret (Some (str_exn e))) ;;
  let error := default [] error_dict in
  if contains (lit "quota exceeded") (str_lower error) then
    raise (HTTPException 429 error)
  else if contains (lit "authentication") (str_lower error) then
    raise (HTTPException 401 error)
  else
    match error_dict with
    | Some error => raise (HTTPException 503 error)
    | None => raise (OtherException (lit "'error'"))
    end.

(** [POST /query] *)
Definition query_document (env : DocumentHandler.query_env)
    (query_request : QueryRequest) : M query_body :=
  try_except
    (if negb (truthy (strip (question query_request))) then
       raise (HTTPException 400 (lit "Question cannot be empty"))
     else
       response <- DocumentHandler.query_document enoent_msg repr_keys env
                     (question query_request) (filename query_request) ;;
       ret {| body_question := question query_request;
              body_answer := DocumentHandler.answer response;
              body_sources := DocumentHandler.sources response;
              body_filename := filename query_request |})
    (fun e =>
       if is_ValueError e then on_value_error e
       else raise (HTTPException 500
                     (lit "Error querying document: " ++ str_exn e))).

(** Status code of the HTTP response: 200 for a returned body, the code of
    an [HTTPException], 500 for any other exception that leaves the
    endpoint. *)
Definition http_status {A} (r : result A) : Z :=
  match r with
  | Ret _ => 200
  | Raise (HTTPException status_code _) => status_code
  | Raise _ => 500
  end.
End Endpoints.

(** [s.endswith(suffix)] *)
Definition endswith (suffix s : str) : bool :=
  startswith (reverse suffix) (reverse s).

(** What the outside world answers during one [POST /process-pdf]: to the
    copy of the upload into [uploaded_files], then to the processing. *)
Record upload_env : Type := {
  upload_write : write_outcome;
  processing : DocumentHandler.process_env
}.

(** Body of a successful answer of [POST /process-pdf]. *)
Record process_body : Type := {
  body_message : str;
  body_name : str;
  body_status : str
}.

Section Upload.
Variable split_text : str -> result (list str).
Variable str_lower : str -> str.
Variable str_http : Z -> str -> str.

(** [POST /process-pdf]; [filename] is [file.filename]. *)
Definition process_pdf (env : upload_env) (filename : str) : M process_body :=
  try_except
    (if negb (endswith (lit ".pdf") filename) then
       raise (HTTPException 400 (lit "Only PDF files are allowed"))
     else
       let file_path := lit "uploaded_files/" ++ filename in
       write_file (upload_write env) file_path RawFile ;;;
       success <- DocumentHandler.process_document split_text
                    (processing env) file_path filename ;;
       if success : bool then
         ret {| body_message :=
                  lit "PDF '" ++ filename ++ lit "' processed successfully";
                body_name := filename;
                body_status := lit "ready" |}
       else raise (HTTPException 500 (lit "Failed to process PDF")))
    (fun e =>
       if is_ValueError e then
         let error_msg := str_exn str_http e in
         if contains (lit "quota exceeded") (str_lower error_msg) then
           raise (HTTPException 429 error_msg)
         else if contains (lit "authentication") (str_lower error_msg) then
           raise (HTTPException 401 error_msg)
         else raise (HTTPException 503 error_msg)
       else raise (HTTPException 500
                     (lit "Error processing PDF: " ++ str_exn str_http e))).
End Upload.

End Main.

(** ** Sequences of operations on one handler *)

Module Run.

Inductive op : Type :=
| Process (env : DocumentHandler.process_env) (file_path filename : str)
| Delete (env : DocumentHandler.delete_env) (filename : str)
| Query (env : DocumentHandler.query_env) (question : str)
    (filename : option str)
| ListDocuments (r : read_outcome).

Section Exec.
Variable split_text : str -> result (list str).
Variable enoent_msg : str -> str.
Variable repr_keys : list str -> str.

(** The state an operation leaves. *)
Definition exec (o : op) (s : state) : state :=
  match o with
  | Process env file_path filename =>
      (DocumentHandler.process_document split_text env file_path filename s).2
  | Delete env filename => (DocumentHandler.delete_document env filename s).2
  | Query env question filename =>
      (DocumentHandler.query_document enoent_msg repr_keys env question
         filename s).2
  | ListDocuments r => (DocumentHandler.get_processed_documents r s).2
  end.

(** Whether a [process_document] or [delete_document] call returns [True]. *)
Definition returns_true (o : op) (s : state) : bool :=
  match o with
  | Process env file_path filename =>
      match (DocumentHandler.process_document split_text env file_path
               filename s).1 with
      | Ret true => true
      | _ => false
      end
  | Delete env filename =>
      match (DocumentHandler.delete_document env filename s).1 with
      | Ret true => true
      | _ => false
      end
  | _ => false
  end.

Fixpoint run (ops : list op) (s : state) : state :=
  match ops with
  | [] => s
  | o :: ops' => run ops' (exec o s)
  end.

(** The [filename] of the last [process_document] call of the sequence that
    returned [True], [acc] being the one before the sequence. *)
Fixpoint last_processed (ops : list op) (s : state) (acc : option str)
    : option str :=
  match ops with
  | [] => acc
  | o :: ops' =>
      last_processed ops' (exec o s)
        match o with
        | Process _ _ filename =>
            if returns_true o s then Some filename else acc
        | _ => acc
        end
  end.

(** No call of the sequence is a [process_document] that returns [True] or a
    [delete_document] of [f] that returns [True]. *)
Fixpoint undisturbed (f : str) (ops : list op) (s : state) : Prop :=
  match ops with
  | [] => True
  | o :: ops' =>
      match o with
      | Process _ _ _ => returns_true o s = false
      | Delete _ g => g <> f \/ returns_true o s = false
      | _ => True
      end /\ undisturbed f ops' (exec o s)
  end.
End Exec.

End Run.

(** ** Vocabulary of the properties *)

(** The state [process_document] leaves when it returns [True]. *)
Definition processed_state (w : write_outcome) (path filename : str)
    (chunks : list str) (s : state) : state :=
  let vpath := lit "vectorstore/" ++ filename ++ lit "_vectorstore.pkl" in
  let s1 := log_call (EvEmbed chunks) s in
  let s2 := set_disk (<[vpath := IndexFile chunks]> (disk s1)) s1 in
  let s3 :=
    set_docs (dict_set filename
                {| file_path := path; vectorstore_path := vpath;
                   chunks_count := length chunks;
                   status := lit "processed" |}
                (processed_docs s2)) s2 in
  (DocumentHandler._save_metadata w s3).2.

(** The state [delete_document] leaves when it returns [True]. *)
Definition deleted_state (w : write_outcome) (filename : str)
    (info : doc_info) (s : state) : state :=
  let s1 := set_disk (delete (vectorstore_path info) (disk s)) s in
  let s2 := set_disk (delete (file_path info) (disk s1)) s1 in
  let s3 := set_docs (dict_del filename (processed_docs s2)) s2 in
  (DocumentHandler._save_metadata w s3).2.

(** [os.remove] does not raise for [path]: there is nothing to remove, or
    the removal succeeds. *)
Definition removal_succeeds (r : remove_outcome) (path : str)
    (d : gmap str file) : Prop :=
  d !! path = None \/ r = Removed.

(** The same answers of the outside world, but for the metadata write. *)
Definition with_meta_write (w : write_outcome)
    (env : DocumentHandler.process_env) : DocumentHandler.process_env :=
  {| DocumentHandler.fitz := DocumentHandler.fitz env;
     DocumentHandler.embed := DocumentHandler.embed env;
     DocumentHandler.index_write := DocumentHandler.index_write env;
     DocumentHandler.meta_write := w |}.

(** The caller-facing copy of the retrieved documents. *)
Definition sources_of (docs : list RAGChain.Document) : list RAGChain.source :=
  (fun doc => {| RAGChain.content :=
                   RAGChain.source_content (RAGChain.page_content doc);
                 RAGChain.source_metadata := RAGChain.metadata doc |}) <$> docs.

Section QueryLoaded.
Variable enoent_msg : str -> str.
Variable repr_keys : list str -> str.

(** The part of [query_document] that follows the loading of the metadata. *)
Definition query_loaded (env : DocumentHandler.query_env) (question : str)
    (filename : option str) (s : state)
    : result DocumentHandler.response * state :=
  let not_found :=
    Raise (ValueError (lit "Document not found. Available: "
                       ++ repr_keys (dict_keys (processed_docs s)))) in
  match DocumentHandler.resolved_filename filename (processed_docs s) with
  | Some ((_ :: _) as f) =>
      match dict_get f (processed_docs s) with
      | Some info =>
          match disk s !! vectorstore_path info with
          | Some _ =>
              match RAGChain.query enoent_msg (DocumentHandler.index_read env)
                      (DocumentHandler.qa env)
                      question (vectorstore_path info) s with
              | (Ret response, s') =>
                  (Ret {| DocumentHandler.answer := RAGChain.answer response;
                          DocumentHandler.sources :=
                            RAGChain.sources response;
                          DocumentHandler.document := f |}, s')
              | (Raise e, s') => (Raise e, s')
              end
          | None =>
              (Raise (FileNotFoundError
                        (lit "Vectorstore missing for document: " ++ f)), s)
          end
      | None => (not_found, s)
      end
  | _ => (not_found, s)
  end.

End QueryLoaded.

(** The [document] of the response of a query, when there is one. *)
Definition answered_document (r : result DocumentHandler.response * state)
    : option str :=
  match r.1 with
  | Ret response => Some (DocumentHandler.document response)
  | Raise _ => None
  end.

(** A chunk that the filter of [split_text_into_chunks] keeps. *)
Definition long_enough (chunk : str) : Prop :=
  (50 < length (strip chunk))%nat.

(** Every call of [FAISS.from_documents] and every vector store on disk that
    [s] has and [s0] has not is made of chunks that are [long_enough]. *)
Definition indexed_since (s0 s : state) : Prop :=
  (forall chunks,
     EvEmbed chunks ∈ calls s ->
     EvEmbed chunks ∈ calls s0 \/ Forall long_enough chunks) /\
  (forall path chunks,
     disk s !! path = Some (IndexFile chunks) ->
     disk s0 !! path = Some (IndexFile chunks) \/ Forall long_enough chunks).

(** What the caller-facing copy of a retrieved chunk has to be. *)
Definition truncated (text : str) : str :=
  if decide (length text <= 200)%nat then text
  else take 200 text ++ lit "...".

(** ** Sample answers of the outside world, used to run the code *)

Definition sample_split (text : str) : result (list str) := Ret [text].
Definition sample_enoent (path : str) : str := lit "No such file: " ++ path.
Definition sample_repr (keys : list str) : str := concat keys.
Definition sample_str_http (status_code : Z) (detail : str) : str := detail.
Definition sample_eval (s : str) : result (option str) := Ret None.

(** A page of 60 letters: long enough to survive the chunk filter. *)
Definition sample_page : str := replicate 60 97.

Definition empty_state : state :=
  {| processed_docs := []; disk := ∅; calls := [] |}.

Definition process_ok : DocumentHandler.process_env :=
  {| DocumentHandler.fitz := Ret [sample_page];
     DocumentHandler.embed := Ret tt;
     DocumentHandler.index_write := Written;
     DocumentHandler.meta_write := Written |}.

Definition sample_qa : RAGChain.qa_result :=
  {| RAGChain.qa_answer := lit "X is a widget";
     RAGChain.source_documents :=
       Some [ {| RAGChain.page_content := sample_page;
                 RAGChain.metadata := [] |};
              {| RAGChain.page_content := replicate 250 98;
                 RAGChain.metadata := [] |} ] |}.

Definition query_ok : DocumentHandler.query_env :=
  {| DocumentHandler.meta_read := ReadOk;
     DocumentHandler.index_read := ReadOk;
     DocumentHandler.qa := Ret sample_qa |}.

Definition delete_ok : DocumentHandler.delete_env :=
  {| DocumentHandler.rm_vectorstore := Removed;
     DocumentHandler.rm_file := Removed;
     DocumentHandler.del_meta_write := Written |}.

Definition process_document' := DocumentHandler.process_document sample_split.
Definition query_document' :=
  DocumentHandler.query_document sample_enoent sample_repr.
Definition post_query' :=
  Main.query_document sample_enoent sample_repr (fun s => s) sample_eval
    sample_str_http.

Definition doc_a : str := lit "a.pdf".
Definition doc_b : str := lit "b.pdf".
Definition doc_c : str := lit "c.pdf".
Definition upload (filename : str) : str := lit "uploaded_files/" ++ filename.
Definition index_of (filename : str) : str :=
  lit "vectorstore/" ++ filename ++ lit "_vectorstore.pkl".

(** The only chunk of a document whose only page is [sample_page]. *)
Definition sample_chunk : str :=
  [10] ++ lit "--- Page 1 ---" ++ [10] ++ sample_page ++ [10].

(** The state a sequence of calls leaves, from a handler that knows no
    document and an empty disk. *)
Definition after (ops : list Run.op) : state :=
  Run.run sample_split sample_enoent sample_repr ops empty_state.

(** [a.pdf] has been uploaded and processed. *)
Definition one_document : state :=
  Run.run sample_split sample_enoent sample_repr
    [Run.Process process_ok (upload doc_a) doc_a]
    {| processed_docs := []; disk := {[ upload doc_a := RawFile ]};
       calls := [] |}.

(** The OpenAI key is rejected. *)
Definition process_auth_fails : DocumentHandler.process_env :=
  {| DocumentHandler.fitz := Ret [sample_page];
     DocumentHandler.embed :=
       Raise (AuthenticationError (lit "Incorrect API key provided"));
     DocumentHandler.index_write := Written;
     DocumentHandler.meta_write := Written |}.

(** The document has two pages without text. *)
Definition process_blank : DocumentHandler.process_env :=
  {| DocumentHandler.fitz := Ret [lit "   "; []];
     DocumentHandler.embed := Ret tt;
     DocumentHandler.index_write := Written;
     DocumentHandler.meta_write := Written |}.

(** The metadata file cannot be opened for writing. *)
Definition process_save_fails : DocumentHandler.process_env :=
  with_meta_write (OpenFails (OtherException (lit "No space left on device")))
    process_ok.

(** The original file cannot be removed. *)
Definition delete_file_fails : DocumentHandler.delete_env :=
  {| DocumentHandler.rm_vectorstore := Removed;
     DocumentHandler.rm_file :=
       RemoveFails (OtherException (lit "Permission denied"));
     DocumentHandler.del_meta_write := Written |}.

(** The record that [process_document] stores for a sample document. *)
Definition sample_info (filename : str) : doc_info :=
  {| file_path := upload filename;
     vectorstore_path := index_of filename;
     chunks_count := 1;
     status := lit "processed" |}.

(** [a.pdf] was processed, then its vector store was removed from the disk
    by someone else. *)
Definition index_missing_state : state :=
  let s := after [Run.Process process_ok (upload doc_a) doc_a] in
  set_disk (delete (index_of doc_a) (disk s)) s.

(** A chunk of 203 characters that ends in three dots. *)
Definition dotted_chunk : str := replicate 200 97 ++ lit "...".

Definition query_dotted : DocumentHandler.query_env :=
  {| DocumentHandler.meta_read := ReadOk;
     DocumentHandler.index_read := ReadOk;
     DocumentHandler.qa :=
       Ret {| RAGChain.qa_answer := lit "I don't know";
              RAGChain.source_documents :=
                Some [ {| RAGChain.page_content := dotted_chunk;
                          RAGChain.metadata := [] |} ] |} |}.


(** ** Vocabulary of the further properties *)

(** The block that [extract_text_from_pdf] appends for a page with text. *)
Definition render_page (e : PDFLoader.page_entry) : str :=
  ([10] ++ lit "--- Page " ++ str_of_nat (PDFLoader.page_number e)
        ++ lit " ---" ++ [10])
  ++ (PDFLoader.text e ++ [10]).

(** A character that [_clean_text] may leave in a text: no control
    character, and no whitespace but the space. *)
Definition clean_char (c : N) : Prop :=
  PDFLoader.special_char c = false /\ (isspace c = true -> c = 32).

(** The [ValueError] message that stands for a failure of the provider. *)
Definition provider_message (e : exn) : option str :=
  match e with
  | AuthenticationError _ => Some RAGChain.auth_msg
  | RateLimitError _ => Some RAGChain.quota_msg
  | OpenAIError _ => Some RAGChain.service_msg
  | _ => None
  end.

(** The status code that both endpoints give to a provider failure. *)
Definition provider_status (e : exn) : option Z :=
  match e with
  | AuthenticationError _ => Some 401%Z
  | RateLimitError _ => Some 429%Z
  | OpenAIError _ => Some 503%Z
  | _ => None
  end.

(** The status code that both endpoints give to a [ValueError] with the
    message [msg] (for [POST /query], when the message does not start with
    a brace). *)
Definition value_error_status (str_lower : str -> str) (msg : str) : Z :=
  if Main.contains (lit "quota exceeded") (str_lower msg) then 429%Z
  else if Main.contains (lit "authentication") (str_lower msg) then 401%Z
  else 503%Z.

(** The status code that [POST /process-pdf] gives to an exception that is
    raised in its [try] block. *)
Definition upload_error_status (str_lower : str -> str) (e : exn) : Z :=
  match e with
  | ValueError msg => value_error_status str_lower msg
  | _ => 500%Z
  end.

(** The state once the upload [filename] has been copied to
    [uploaded_files]. *)
Definition uploaded (filename : str) (s : state) : state :=
  set_disk (<[upload filename := RawFile]> (disk s)) s.

(** [str.lower] on a string of ASCII characters. *)
Definition lower_ascii (s : str) : str :=
  (fun c => if (65 <=? c) && (c <=? 90) then c + 32 else c) <$> s.

(** [str_lower] agrees with Python on the strings of ASCII characters. *)
Definition lowers_ascii (str_lower : str -> str) : Prop :=
  forall s, forallb (fun c => c <? 128) s = true -> str_lower s = lower_ascii s.

(** The documents [_load_metadata] finds for a handler without any. *)
Definition loaded_docs (r : read_outcome) (s : state)
    : list (str * doc_info) :=
  match r, disk s !! DocumentHandler.metadata_path with
  | ReadOk, Some (MetaFile docs) => docs
  | _, _ => []
  end.

(** A handler started anew on the same disk. *)
Definition restart (s : state) : state := set_docs [] s.

(** The metadata write of a call that changes [processed_docs]. *)
Definition meta_write_of (o : Run.op) : option write_outcome :=
  match o with
  | Run.Process env _ _ => Some (DocumentHandler.meta_write env)
  | Run.Delete env _ => Some (DocumentHandler.del_meta_write env)
  | _ => None
  end.

(** The embedding runs out of quota. *)
Definition process_quota_fails : DocumentHandler.process_env :=
  {| DocumentHandler.fitz := Ret [sample_page];
     DocumentHandler.embed :=
       Raise (RateLimitError (lit "You exceeded your quota"));
     DocumentHandler.index_write := Written;
     DocumentHandler.meta_write := Written |}.

(** A handler started anew on a disk where [b.pdf] was processed. *)
Definition restarted_state : state :=
  restart (after [Run.Process process_ok (upload doc_b) doc_b]).

(** The text extracted from a document whose first page has no text and
    whose second page is [sample_page]. *)
Definition second_page_text : str :=
  [10] ++ lit "--- Page 2 ---" ++ [10] ++ sample_page ++ [10].

(** [POST /process-pdf] when nothing fails. *)
Definition upload_ok : Main.upload_env :=
  {| Main.upload_write := Written; Main.processing := process_ok |}.

(** [POST /process-pdf] when the OpenAI key is rejected. *)
Definition upload_auth_fails : Main.upload_env :=
  {| Main.upload_write := Written; Main.processing := process_auth_fails |}.

(** The retrieval chain runs out of quota. *)
Definition query_quota_fails : DocumentHandler.query_env :=
  {| DocumentHandler.meta_read := ReadOk;
     DocumentHandler.index_read := ReadOk;
     DocumentHandler.qa :=
       Raise (RateLimitError (lit "You exceeded your quota")) |}.

Definition process_pdf' :=
  Main.process_pdf sample_split lower_ascii sample_str_http.
Definition post_query_lower :=
  Main.query_document sample_enoent sample_repr lower_ascii sample_eval
    sample_str_http.

(** * Properties *)

(** Unfolds the combinators of [M] so that a computation can be run by
    case analysis on what the outside world answers. *)
Ltac run_M :=
  unfold bind, try_except, ret, raise, modify, lift, get_state in *;
  simpl in *.

(** Reduces the projections of a state that is given by its updates. *)
Ltac state_simpl :=
  cbn [fst snd disk processed_docs calls set_disk set_docs log_call] in *.

(** ** Dictionaries *)

Section DictFacts.
Context {V : Type}.
Implicit Types (d : list (str * V)) (k : str) (v : V).

Lemma dict_set_fresh k v d :
  dict_get k d = None -> dict_set k v d = d ++ [(k, v)].
Proof.
  induction d as [|[k' v'] d IH]; simpl; [done|].
  destruct (decide (k' = k)); [done|].
  intros H. by rewrite IH.
Qed.

Lemma dict_set_present k v v0 d :
  dict_get k d = Some v0 -> dict_keys (dict_set k v d) = dict_keys d.
Proof.
  unfold dict_keys.
  induction d as [|[k' v'] d IH]; simpl; [done|].
  destruct (decide (k' = k)) as [->|]; [done|].
  intros H. simpl. f_equal. by apply IH.
Qed.

Lemma dict_get_set k v d : dict_get k (dict_set k v d) = Some v.
Proof.
  induction d as [|[k' v'] d IH]; simpl.
  - by rewrite decide_True.
  - destruct (decide (k' = k)); simpl.
    + by rewrite decide_True.
    + by rewrite decide_False.
Qed.

Lemma dict_get_del k d : dict_get k (dict_del k d) = None.
Proof.
  induction d as [|[k' v'] d IH]; simpl; [done|].
  destruct (decide (k' = k)); simpl; [done|].
  by rewrite decide_False.
Qed.

Lemma dict_get_del_ne k k' d :
  k <> k' -> dict_get k' (dict_del k d) = dict_get k' d.
Proof.
  intros Hne.
  induction d as [|[k0 v0] d IH]; simpl; [done|].
  destruct (decide (k0 = k)) as [->|]; simpl.
  - by rewrite decide_False.
  - by rewrite IH.
Qed.

Lemma dict_del_snoc k f v d :
  k <> f -> dict_del k (d ++ [(f, v)]) = dict_del k d ++ [(f, v)].
Proof.
  intros Hne.
  induction d as [|[k0 v0] d IH]; simpl.
  - by rewrite decide_False.
  - destruct (decide (k0 = k)); simpl; by rewrite IH.
Qed.

Lemma dict_keys_snoc f v d : last (dict_keys (d ++ [(f, v)])) = Some f.
Proof. unfold dict_keys. rewrite fmap_app. simpl. apply last_snoc. Qed.

Lemma dict_not_mem_del k d : k ∉ dict_keys (dict_del k d).
Proof.
  unfold dict_keys.
  induction d as [|[k0 v0] d IH]; simpl.
  - apply not_elem_of_nil.
  - destruct (decide (k0 = k)); simpl; [done|].
    rewrite elem_of_cons. intros [->|H]; [done|]. by apply IH.
Qed.
End DictFacts.

(** ** Strings *)

Lemma lstrip_spaces (s : str) : forallb isspace s = true -> lstrip s = [].
Proof.
  induction s as [|c s IH]; cbn [lstrip forallb]; [done|].
  destruct (isspace c); cbn [andb]; [exact IH|done].
Qed.

(** A string of whitespace only strips to the empty string. *)
Lemma strip_spaces (s : str) : forallb isspace s = true -> strip s = [].
Proof. intros H. unfold strip, rstrip. by rewrite (lstrip_spaces s H). Qed.

Lemma source_content_short (text : str) :
  (length text <= 200)%nat -> RAGChain.source_content text = text.
Proof.
  intros H. unfold RAGChain.source_content.
  destruct (200 <? length text)%nat eqn:E; [|done].
  apply Nat.ltb_lt in E. lia.
Qed.

Lemma source_content_long (text : str) :
  (200 < length text)%nat ->
  RAGChain.source_content text = take 200 text ++ lit "...".
Proof.
  intros H. unfold RAGChain.source_content.
  destruct (200 <? length text)%nat eqn:E; [done|].
  apply Nat.ltb_ge in E. lia.
Qed.

Lemma source_content_length (text : str) :
  (length (RAGChain.source_content text) <= 203)%nat.
Proof.
  destruct (decide (length text <= 200)%nat) as [H|H].
  - rewrite source_content_short by done. lia.
  - rewrite source_content_long by lia.
    rewrite length_app, length_take.
    change (length (lit "...")) with 3%nat. lia.
Qed.

(** ** The handler *)

Section Properties.
Variable split_text : str -> result (list str).
Variable enoent_msg : str -> str.
Variable repr_keys : list str -> str.

Import DocumentHandler.

Local Abbreviation load_and_split := (PDFLoader.load_and_split split_text).
Local Abbreviation process_document :=
  (DocumentHandler.process_document split_text).
Local Abbreviation query_document :=
  (DocumentHandler.query_document enoent_msg repr_keys).
Local Abbreviation query_loaded := (query_loaded enoent_msg repr_keys).

(** [_save_metadata] never raises and leaves [processed_docs] and the
    provider calls as they are. *)
Lemma save_metadata_spec w s :
  _save_metadata w s =
    (Ret tt,
     match w with
     | Written =>
         set_disk (<[metadata_path := MetaFile (processed_docs s)]> (disk s)) s
     | OpenFails _ => s
     | DumpFails _ => set_disk (<[metadata_path := RawFile]> (disk s)) s
     end).
Proof. unfold _save_metadata, write_file. by destruct w. Qed.

(** [_load_metadata] never raises. *)
Lemma load_metadata_returns r s : (_load_metadata r s).1 = Ret tt.
Proof.
  unfold _load_metadata, read_metadata, path_exists. run_M.
  destruct (bool_decide _); [|done].
  destruct r; [|done].
  by destruct (disk s !! metadata_path) as [[]|].
Qed.

Lemma load_if_empty_returns r s : (load_if_empty r s).1 = Ret tt.
Proof.
  unfold load_if_empty. run_M.
  destruct (processed_docs s); [apply load_metadata_returns|done].
Qed.

Lemma load_if_empty_nonempty r s :
  processed_docs s <> [] -> load_if_empty r s = (Ret tt, s).
Proof.
  unfold load_if_empty. run_M. by destruct (processed_docs s).
Qed.

Lemma load_if_empty_calls r s : calls (load_if_empty r s).2 = calls s.
Proof.
  unfold load_if_empty, _load_metadata, read_metadata, path_exists. run_M.
  destruct (processed_docs s); [|done].
  destruct (bool_decide _); [|done].
  destruct r; [|done].
  by destruct (disk s !! metadata_path) as [[]|].
Qed.

(** C7. When the text extracted from the document is empty or consists of
    whitespace only, [load_and_split] returns the empty list (it does not
    raise), and [process_document] returns [False] and leaves the state as it
    was: no record is inserted and nothing is written. *)
Theorem process_blank_text_fails env file_path filename s text :
  PDFLoader.extract_text_from_pdf (fitz env) = Ret text ->
  forallb isspace text = true ->
  load_and_split (fitz env) = Ret [] /\
  process_document env file_path filename s = (Ret false, s).
Proof.
  intros Htext Hblank.
  assert (Hsplit : load_and_split (fitz env) = Ret []).
  { unfold PDFLoader.load_and_split.
    by rewrite Htext, (strip_spaces text Hblank). }
  split; [done|].
  unfold DocumentHandler.process_document. run_M. by rewrite Hsplit.
Qed.

(** C2. When [FAISS.from_documents] raises [AuthenticationError] while the
    index of a document is built, [process_document] raises the [ValueError]
    that carries the authentication message (it does not return [False]),
    and neither [processed_docs] nor the disk changes. *)
Theorem process_auth_failure_propagates env file_path filename s chunks msg :
  load_and_split (fitz env) = Ret chunks ->
  chunks <> [] ->
  embed env = Raise (AuthenticationError msg) ->
  let r := process_document env file_path filename s in
  r.1 = Raise (ValueError RAGChain.auth_msg) /\
  r.1 <> Ret false /\
  processed_docs r.2 = processed_docs s /\
  disk r.2 = disk s /\
  calls r.2 = calls s ++ [EvEmbed chunks].
Proof.
  intros Hsplit Hne Hembed.
  unfold DocumentHandler.process_document, RAGChain.create_vectorstore,
    RAGChain.openai_errors.
  run_M. rewrite Hsplit, Hembed.
  destruct chunks as [|c cs]; [done|]. simpl. by repeat split.
Qed.

(** The three messages that classify a provider failure are distinct. *)
Lemma provider_messages_distinct :
  RAGChain.auth_msg <> RAGChain.quota_msg /\
  RAGChain.auth_msg <> RAGChain.service_msg /\
  RAGChain.quota_msg <> RAGChain.service_msg.
Proof. by repeat split. Qed.

(** C4. When the document [f] a query addresses (named by the caller, or the
    last key when none is named) has a record whose vector store is not on
    disk, [query_document] raises [FileNotFoundError] for that document, and
    no provider call is made. [s1] is the state once the metadata has been
    loaded if [processed_docs] was empty. The name [f] is not empty: for
    [query_document] the empty string stands for no name at all. *)
Theorem query_missing_index env question filename s f info :
  let s1 := (load_if_empty (meta_read env) s).2 in
  resolved_filename filename (processed_docs s1) = Some f ->
  f <> [] ->
  dict_get f (processed_docs s1) = Some info ->
  disk s1 !! vectorstore_path info = None ->
  query_document env question filename s =
    (Raise (FileNotFoundError (lit "Vectorstore missing for document: " ++ f)),
     s1) /\
  calls s1 = calls s.
Proof.
  intros s1 Hres Hf Hget Hdisk.
  split; [|apply load_if_empty_calls].
  unfold DocumentHandler.query_document. run_M.
  pose proof (load_if_empty_returns (meta_read env) s) as Hret.
  destruct (load_if_empty (meta_read env) s) as [r s2] eqn:Hload.
  simpl in *. subst r s1. rewrite Hres.
  destruct f as [|c f]; [done|].
  rewrite Hget. unfold path_exists. simpl.
  rewrite Hdisk. by rewrite bool_decide_eq_false_2 by (by intros [? ?]).
Qed.

(** [create_vectorstore], one case for each answer of the outside world. *)
Lemma create_vectorstore_spec em w chunks path s :
  RAGChain.create_vectorstore em w chunks path s =
    let s1 := log_call (EvEmbed chunks) s in
    match em with
    | Raise (AuthenticationError _) =>
        (Raise (ValueError RAGChain.auth_msg), s1)
    | Raise (RateLimitError _) => (Raise (ValueError RAGChain.quota_msg), s1)
    | Raise (OpenAIError _) => (Raise (ValueError RAGChain.service_msg), s1)
    | Raise e => reraise_value_error e s1
    | Ret _ =>
        match w with
        | Written =>
            (Ret true, set_disk (<[path := IndexFile chunks]> (disk s1)) s1)
        | OpenFails e => reraise_value_error e s1
        | DumpFails e =>
            reraise_value_error e (set_disk (<[path := RawFile]> (disk s1)) s1)
        end
    end.
Proof.
  unfold RAGChain.create_vectorstore, RAGChain.openai_errors, write_file.
  cbv [bind try_except ret raise modify lift].
  destruct em as [[]|[]]; try reflexivity.
  all: destruct w as [|[]|[]]; reflexivity.
Qed.

(** [process_document], one case for each answer of the outside world. *)
Lemma process_document_spec env path filename s :
  process_document env path filename s =
    match load_and_split (fitz env) with
    | Raise e => reraise_value_error e s
    | Ret [] => (Ret false, s)
    | Ret chunks =>
        let vpath := lit "vectorstore/" ++ filename ++ lit "_vectorstore.pkl" in
        match RAGChain.create_vectorstore (embed env) (index_write env)
                chunks vpath s with
        | (Ret true, _) =>
            (Ret true, processed_state (meta_write env) path filename chunks s)
        | (Ret false, s') => (Ret false, s')
        | (Raise e, s') => reraise_value_error e s'
        end
    end.
Proof.
  unfold DocumentHandler.process_document.
  cbv [bind try_except lift].
  destruct (load_and_split (fitz env)) as [[|c cs]|e]; try reflexivity.
  rewrite create_vectorstore_spec. unfold processed_state.
  destruct (embed env) as [[]|[]]; cbn beta iota zeta; try reflexivity.
  destruct (index_write env) as [|[]|[]]; try reflexivity.
  cbv [modify ret]. by rewrite save_metadata_spec.
Qed.

Lemma reraise_value_error_docs e s :
  (reraise_value_error e s).1 <> Ret true /\ (reraise_value_error e s).2 = s.
Proof. unfold reraise_value_error. by destruct e. Qed.

Lemma create_vectorstore_docs em w chunks path s :
  processed_docs (RAGChain.create_vectorstore em w chunks path s).2 =
    processed_docs s.
Proof.
  rewrite create_vectorstore_spec.
  destruct em as [[]|e]; cbn zeta.
  - destruct w as [|e|e]; [done|by destruct e..].
  - by destruct e.
Qed.

Lemma create_vectorstore_calls em w chunks path s :
  calls (RAGChain.create_vectorstore em w chunks path s).2 =
    calls s ++ [EvEmbed chunks].
Proof.
  rewrite create_vectorstore_spec.
  destruct em as [[]|e]; cbn zeta.
  - destruct w as [|e|e]; [done|by destruct e..].
  - by destruct e.
Qed.

(** A call that does not return [True] leaves [processed_docs] as it was. *)
Lemma process_document_not_true env path filename s :
  (process_document env path filename s).1 <> Ret true ->
  processed_docs (process_document env path filename s).2 = processed_docs s.
Proof.
  rewrite process_document_spec.
  destruct (load_and_split (fitz env)) as [[|c cs]|e]; [done| |by destruct e].
  cbn zeta.
  pose proof (create_vectorstore_docs (embed env) (index_write env) (c :: cs)
    (lit "vectorstore/" ++ filename ++ lit "_vectorstore.pkl") s) as Hdocs.
  destruct (RAGChain.create_vectorstore _ _ _ _ s) as [[[]|e] s']; simpl in *;
    [done|done|by destruct e].
Qed.

(** A call that returns [True] has built the index from the chunks of the
    document and leaves [processed_state]. *)
Lemma process_document_true env path filename s :
  (process_document env path filename s).1 = Ret true ->
  exists chunks,
    load_and_split (fitz env) = Ret chunks /\ chunks <> [] /\
    embed env = Ret tt /\ index_write env = Written /\
    (process_document env path filename s).2 =
      processed_state (meta_write env) path filename chunks s.
Proof.
  rewrite process_document_spec.
  destruct (load_and_split (fitz env)) as [[|c cs]|e]; [done| |by destruct e].
  cbn zeta. rewrite create_vectorstore_spec. cbn zeta.
  destruct (embed env) as [[]|e]; [|by destruct e].
  destruct (index_write env) as [|e|e]; [|by destruct e..].
  intros _. by exists (c :: cs).
Qed.

Lemma processed_state_docs w path filename chunks s :
  processed_docs (processed_state w path filename chunks s) =
    dict_set filename
      {| file_path := path;
         vectorstore_path :=
           lit "vectorstore/" ++ filename ++ lit "_vectorstore.pkl";
         chunks_count := length chunks;
         status := lit "processed" |}
      (processed_docs s).
Proof.
  unfold processed_state. cbn zeta. rewrite save_metadata_spec.
  by destruct w.
Qed.

Lemma process_document_returns_true env path filename s chunks :
  load_and_split (fitz env) = Ret chunks ->
  chunks <> [] ->
  embed env = Ret tt ->
  index_write env = Written ->
  process_document env path filename s =
    (Ret true, processed_state (meta_write env) path filename chunks s).
Proof.
  intros Hsplit Hne Hembed Hindex.
  rewrite process_document_spec, Hsplit.
  destruct chunks as [|c cs]; [done|].
  cbn zeta. by rewrite create_vectorstore_spec, Hembed, Hindex.
Qed.

(** The vector store of a document is never the metadata file. *)
Lemma vectorstore_path_not_metadata (filename : str) :
  lit "vectorstore/" ++ filename ++ lit "_vectorstore.pkl" <> metadata_path.
Proof.
  intros H. apply (f_equal (fun l => take 5 (reverse l))) in H.
  rewrite !reverse_app in H. vm_compute in H. discriminate.
Qed.

(** C9. When the index has been built and writing the metadata file raises,
    [process_document] still returns [True]: its result and the
    [processed_docs] it leaves are those of the call whose write succeeds,
    the record is in [processed_docs], and the metadata file holds what it
    held before the call or is a partly written file, while a write that
    succeeds leaves the new [processed_docs] in it. *)
Theorem process_succeeds_when_save_fails env path filename s chunks :
  load_and_split (fitz env) = Ret chunks ->
  chunks <> [] ->
  embed env = Ret tt ->
  index_write env = Written ->
  meta_write env <> Written ->
  let r := process_document env path filename s in
  let r_saved :=
    process_document (with_meta_write Written env) path filename s in
  r.1 = Ret true /\
  r.1 = r_saved.1 /\
  processed_docs r.2 = processed_docs r_saved.2 /\
  dict_get filename (processed_docs r.2) =
    Some {| file_path := path;
            vectorstore_path :=
              lit "vectorstore/" ++ filename ++ lit "_vectorstore.pkl";
            chunks_count := length chunks;
            status := lit "processed" |} /\
  disk r.2 !! metadata_path =
    match meta_write env with
    | DumpFails _ => Some RawFile
    | _ => disk s !! metadata_path
    end /\
  disk r_saved.2 !! metadata_path = Some (MetaFile (processed_docs r.2)).
Proof.
  intros Hsplit Hne Hembed Hindex Hmeta r r_saved. subst r r_saved.
  rewrite (process_document_returns_true env path filename s chunks) by done.
  rewrite (process_document_returns_true (with_meta_write Written env) path
             filename s chunks) by done.
  cbn [fst snd with_meta_write meta_write].
  rewrite !processed_state_docs, dict_get_set.
  repeat split.
  - unfold processed_state. cbn zeta. rewrite save_metadata_spec.
    destruct (meta_write env) as [|e|e]; [done| |]; state_simpl.
    + by rewrite lookup_insert_ne by apply vectorstore_path_not_metadata.
    + by rewrite lookup_insert_eq.
  - unfold processed_state. cbn zeta. rewrite save_metadata_spec.
    state_simpl. by rewrite lookup_insert_eq.
Qed.

(** [if os.path.exists(path): os.remove(path)], by cases. *)
Lemma remove_if_exists_spec r path s :
  remove_if_exists r path s =
    match disk s !! path, r with
    | Some _, RemoveFails e => (Raise e, s)
    | _, _ => (Ret tt, set_disk (delete path (disk s)) s)
    end.
Proof.
  unfold remove_if_exists, path_exists. cbv [bind ret raise modify].
  destruct (disk s !! path) as [f|] eqn:Hp.
  - rewrite bool_decide_eq_true_2 by eauto. by destruct r.
  - rewrite bool_decide_eq_false_2 by (by intros [? ?]).
    rewrite delete_id by done. destruct s. by destruct r.
Qed.

(** [delete_document], one case for each answer of the outside world. *)
Lemma delete_document_spec env filename s :
  delete_document env filename s =
    match dict_get filename (processed_docs s) with
    | None => (Ret false, s)
    | Some info =>
        let s1 := set_disk (delete (vectorstore_path info) (disk s)) s in
        match disk s !! vectorstore_path info, rm_vectorstore env with
        | Some _, RemoveFails _ => (Ret false, s)
        | _, _ =>
            match disk s1 !! file_path info, rm_file env with
            | Some _, RemoveFails _ => (Ret false, s1)
            | _, _ =>
                (Ret true, deleted_state (del_meta_write env) filename info s)
            end
        end
    end.
Proof.
  unfold DocumentHandler.delete_document, deleted_state.
  cbv [bind try_except get_state].
  destruct (dict_get filename (processed_docs s)) as [info|]; [|done].
  rewrite remove_if_exists_spec. cbn zeta.
  destruct (disk s !! vectorstore_path info) as [f|],
    (rm_vectorstore env) as [|e]; try done.
  all: rewrite remove_if_exists_spec;
    match goal with
    | |- context [disk ?s1 !! file_path ?i] =>
        destruct (disk s1 !! file_path i) as [g|]
    end; destruct (rm_file env) as [|e']; try done.
  all: cbv [modify ret]; by rewrite save_metadata_spec.
Qed.

Lemma deleted_state_docs w filename info s :
  processed_docs (deleted_state w filename info s) =
    dict_del filename (processed_docs s).
Proof.
  unfold deleted_state. cbn zeta. rewrite save_metadata_spec. by destruct w.
Qed.

Lemma deleted_state_disk w filename info s :
  disk (deleted_state w filename info s) =
    let d :=
      delete (file_path info) (delete (vectorstore_path info) (disk s)) in
    match w with
    | Written =>
        <[metadata_path := MetaFile (dict_del filename (processed_docs s))]> d
    | OpenFails _ => d
    | DumpFails _ => <[metadata_path := RawFile]> d
    end.
Proof.
  unfold deleted_state. cbn zeta. rewrite save_metadata_spec. by destruct w.
Qed.

Lemma delete_document_returns_true env filename s info :
  dict_get filename (processed_docs s) = Some info ->
  removal_succeeds (rm_vectorstore env) (vectorstore_path info) (disk s) ->
  removal_succeeds (rm_file env) (file_path info)
    (delete (vectorstore_path info) (disk s)) ->
  delete_document env filename s =
    (Ret true, deleted_state (del_meta_write env) filename info s).
Proof.
  intros Hget Hv Hf. rewrite delete_document_spec, Hget. cbn zeta.
  state_simpl.
  destruct Hv as [Hv|Hv], Hf as [Hf|Hf]; rewrite ?Hv, ?Hf;
    repeat match goal with
      | |- context [match ?x with _ => _ end] => destruct x
      end; done.
Qed.

(** C8. [delete_document] of a document that is not in [processed_docs]
    returns [False] and leaves the state as it was. For a document that is
    known, when no [os.remove] raises (a file that is missing is skipped),
    it returns [True], the record is gone from [processed_docs], the vector
    store and the original file are gone from the disk, and a metadata
    write that succeeds leaves the new [processed_docs] in the metadata
    file. *)
Theorem delete_document_correct env filename s :
  (dict_get filename (processed_docs s) = None ->
   delete_document env filename s = (Ret false, s)) /\
  (forall info,
     dict_get filename (processed_docs s) = Some info ->
     removal_succeeds (rm_vectorstore env) (vectorstore_path info) (disk s) ->
     removal_succeeds (rm_file env) (file_path info)
       (delete (vectorstore_path info) (disk s)) ->
     let r := delete_document env filename s in
     r.1 = Ret true /\
     processed_docs r.2 = dict_del filename (processed_docs s) /\
     dict_get filename (processed_docs r.2) = None /\
     (vectorstore_path info <> metadata_path ->
      disk r.2 !! vectorstore_path info = None) /\
     (file_path info <> metadata_path -> disk r.2 !! file_path info = None) /\
     (del_meta_write env = Written ->
      disk r.2 !! metadata_path = Some (MetaFile (processed_docs r.2)))).
Proof.
  split.
  - intros Hget. by rewrite delete_document_spec, Hget.
  - intros info Hget Hv Hf r. subst r.
    rewrite (delete_document_returns_true env filename s info) by done.
    cbn [fst snd].
    rewrite deleted_state_docs, deleted_state_disk, dict_get_del. cbn zeta.
    assert (Hgone_v : delete (file_path info)
              (delete (vectorstore_path info) (disk s))
              !! vectorstore_path info = None).
    { destruct (decide (file_path info = vectorstore_path info)) as [->|Hne].
      - apply lookup_delete_eq.
      - rewrite lookup_delete_ne by done. apply lookup_delete_eq. }
    repeat split.
    + intros Hne. destruct (del_meta_write env);
        rewrite ?lookup_insert_ne by done; exact Hgone_v.
    + intros Hne. destruct (del_meta_write env);
        rewrite ?lookup_insert_ne by done; apply lookup_delete_eq.
    + intros ->. apply lookup_insert_eq.
Qed.

(** C10. For a known document, when [os.remove] raises for its vector store
    or for its original file, [delete_document] returns [False] and the
    record stays in [processed_docs]; nothing is written, and the disk is as
    before, but for the vector store when it was removed before the original
    file failed. *)
Theorem delete_document_removal_fails env filename s info e :
  dict_get filename (processed_docs s) = Some info ->
  (is_Some (disk s !! vectorstore_path info) /\
   rm_vectorstore env = RemoveFails e) \/
  (removal_succeeds (rm_vectorstore env) (vectorstore_path info) (disk s) /\
   is_Some (delete (vectorstore_path info) (disk s) !! file_path info) /\
   rm_file env = RemoveFails e) ->
  let r := delete_document env filename s in
  r.1 = Ret false /\
  processed_docs r.2 = processed_docs s /\
  dict_get filename (processed_docs r.2) = Some info /\
  calls r.2 = calls s /\
  (is_Some (disk s !! vectorstore_path info) ->
   rm_vectorstore env = RemoveFails e -> disk r.2 = disk s) /\
  (removal_succeeds (rm_vectorstore env) (vectorstore_path info) (disk s) ->
   disk r.2 = delete (vectorstore_path info) (disk s)).
Proof.
  intros Hget Hfail r. subst r. rewrite delete_document_spec, Hget.
  cbn zeta. state_simpl.
  destruct Hfail as [[[f Hf] Hrm] | [Hv [[g Hg] Hrm]]].
  - rewrite Hf, Hrm. state_simpl. repeat split; try done.
    intros [Hnone | Hrm']; congruence.
  - rewrite Hg, Hrm.
    assert (Hgoal : forall x : result bool * state,
      x = (Ret false, set_disk (delete (vectorstore_path info) (disk s)) s) ->
      x.1 = Ret false /\ processed_docs x.2 = processed_docs s /\
      dict_get filename (processed_docs x.2) = Some info /\
      calls x.2 = calls s /\
      (is_Some (disk s !! vectorstore_path info) ->
       rm_vectorstore env = RemoveFails e -> disk x.2 = disk s) /\
      (removal_succeeds (rm_vectorstore env) (vectorstore_path info) (disk s) ->
       disk x.2 = delete (vectorstore_path info) (disk s))).
    { intros x ->. state_simpl. repeat split; try done.
      intros [f Hf] Hrm'. destruct Hv as [Hnone | Hrm'']; congruence. }
    apply Hgoal.
    destruct Hv as [-> | ->]; [by destruct (rm_vectorstore env)|].
    by destruct (disk s !! vectorstore_path info).
Qed.

(** ** Queries *)

(** [RAGChain.query], one case for each answer of the outside world. *)
Lemma rag_query_spec r qa_answer question path s :
  RAGChain.query enoent_msg r qa_answer question path s =
    match disk s !! path with
    | None => (Raise (FileNotFoundError (enoent_msg path)), s)
    | Some f =>
        match r, f with
        | ReadFails e, _ => (Raise e, s)
        | ReadOk, IndexFile chunks =>
            let s1 := log_call (EvQA question chunks) s in
            match qa_answer with
            | Ret result =>
                (Ret {| RAGChain.answer := RAGChain.qa_answer result;
                        RAGChain.sources :=
                          sources_of
                            (default [] (RAGChain.source_documents result));
                        RAGChain.question := question |}, s1)
            | Raise (AuthenticationError _) =>
                (Raise (ValueError RAGChain.auth_msg), s1)
            | Raise (RateLimitError _) =>
                (Raise (ValueError RAGChain.quota_msg), s1)
            | Raise (OpenAIError _) =>
                (Raise (ValueError RAGChain.service_msg), s1)
            | Raise e => (Raise e, s1)
            end
        | ReadOk, _ => (Raise (OtherException (lit "not a vector store")), s)
        end
    end.
Proof.
  unfold RAGChain.query, RAGChain.load_vectorstore, RAGChain.openai_errors.
  cbv [bind try_except ret raise modify lift].
  destruct (disk s !! path) as [[]|]; destruct r; try reflexivity.
  destruct qa_answer as [res|[]]; reflexivity.
Qed.

(** [load_if_empty] touches [processed_docs] only. *)
Lemma load_if_empty_disk r s : disk (load_if_empty r s).2 = disk s.
Proof.
  unfold load_if_empty, _load_metadata, read_metadata, path_exists.
  cbv [bind try_except ret raise modify get_state].
  destruct (processed_docs s); [|done].
  destruct (bool_decide _); [|done].
  destruct r; [|done].
  by destruct (disk s !! metadata_path) as [[]|].
Qed.

Lemma query_document_spec env question filename s :
  query_document env question filename s =
    query_loaded env question filename (load_if_empty (meta_read env) s).2.
Proof.
  unfold DocumentHandler.query_document, query_loaded.
  cbv [bind try_except get_state ret raise].
  pose proof (load_if_empty_returns (meta_read env) s) as Hret.
  destruct (load_if_empty (meta_read env) s) as [r s1]. cbn [fst snd] in *.
  subst r.
  destruct (resolved_filename filename (processed_docs s1)) as [[|c f]|];
    try reflexivity.
  destruct (dict_get (c :: f) (processed_docs s1)) as [info|]; [|reflexivity].
  unfold path_exists.
  destruct (disk s1 !! vectorstore_path info) as [g|] eqn:Hg.
  - rewrite bool_decide_eq_true_2 by eauto.
    by destruct (RAGChain.query _ _ _ _ _ _) as [[]].
  - by rewrite bool_decide_eq_false_2 by (by intros [? ?]).
Qed.

Lemma source_content_truncated (text : str) :
  RAGChain.source_content text = truncated text.
Proof.
  unfold truncated. destruct (decide _).
  - by apply source_content_short.
  - apply source_content_long. lia.
Qed.

(** An over-long text equals its caller-facing copy only if it is 200
    characters followed by the ellipsis itself. *)
Lemma truncated_fixed_point (text : str) :
  truncated text = text ->
  (length text <= 200)%nat \/
  (length text = 203%nat /\ drop 200 text = lit "...").
Proof.
  unfold truncated. destruct (decide _) as [|Hlong]; [by left|].
  intros H. right.
  assert (Hlen : length (take 200 text) = 200%nat)
    by (rewrite length_take; lia).
  split.
  - apply (f_equal length) in H. rewrite length_app, Hlen in H.
    change (length (lit "...")) with 3%nat in H. lia.
  - rewrite <- H at 1. by apply drop_app_length'.
Qed.

Lemma query_document_returns env question filename s r s' :
  query_document env question filename s = (Ret r, s') ->
  exists result,
    qa env = Ret result /\
    answer r = RAGChain.qa_answer result /\
    sources r = sources_of (default [] (RAGChain.source_documents result)).
Proof.
  rewrite query_document_spec. unfold query_loaded.
  destruct (load_if_empty (meta_read env) s) as [u s1]. cbn [snd].
  destruct (resolved_filename filename (processed_docs s1)) as [[|c f]|];
    try done.
  destruct (dict_get (c :: f) (processed_docs s1)) as [info|]; [|done].
  destruct (disk s1 !! vectorstore_path info) as [g|] eqn:Hg; [|done].
  rewrite rag_query_spec, Hg.
  destruct (index_read env); [|done].
  destruct g; try done.
  destruct (qa env) as [result|e]; [|by destruct e].
  cbn zeta. intros [= <- <-]. by exists result.
Qed.

(** C5, as the code has it. Every entry of the [sources] of a response of
    [query_document] is the text of the retrieved chunk when that text has
    at most 200 characters, and its first 200 characters followed by three
    dots otherwise; so an entry has at most 203 characters, and it is the
    full text of a chunk of more than 200 characters only when that chunk is
    200 characters followed by three dots. *)
Theorem query_sources_truncated env question filename s r s' :
  query_document env question filename s = (Ret r, s') ->
  exists result,
    qa env = Ret result /\
    Forall2
      (fun src doc =>
         let text := RAGChain.page_content doc in
         RAGChain.content src = truncated text /\
         (length (RAGChain.content src) <= 203)%nat /\
         (RAGChain.content src = text ->
          (length text <= 200)%nat \/
          (length text = 203%nat /\ drop 200 text = lit "...")))
      (sources r) (default [] (RAGChain.source_documents result)).
Proof.
  intros Hq. apply query_document_returns in Hq as (result & Hqa & _ & ->).
  exists result. split; [done|].
  unfold sources_of. apply Forall2_fmap_l, Forall_Forall2_diag, Forall_forall.
  intros doc _. cbn. rewrite source_content_truncated.
  split; [done|]. split.
  - rewrite <- source_content_truncated. apply source_content_length.
  - apply truncated_fixed_point.
Qed.

(** ** Short chunks are never indexed *)

Lemma split_text_into_chunks_long text chunks :
  PDFLoader.split_text_into_chunks split_text text = Ret chunks ->
  Forall long_enough chunks.
Proof.
  unfold PDFLoader.split_text_into_chunks.
  destruct (split_text text) as [all|e]; [|done].
  intros [= <-]. apply Forall_forall. intros chunk Hin.
  apply list_elem_of_filter in Hin as [Hlong _].
  unfold long_enough. by apply Nat.ltb_lt, Is_true_true.
Qed.

Lemma load_and_split_long fz chunks :
  load_and_split fz = Ret chunks -> Forall long_enough chunks.
Proof.
  unfold PDFLoader.load_and_split.
  destruct (PDFLoader.extract_text_from_pdf fz) as [text|e]; [|done].
  destruct (negb _); [by intros [= <-]|].
  destruct (PDFLoader.split_text_into_chunks split_text text)
    as [[|c cs]|e] eqn:Hsplit; [by intros [= <-]| |done].
  intros [= <-]. by eapply split_text_into_chunks_long.
Qed.

Section Since.
Variable s0 : state.
Local Abbreviation indexed_chunks_long := (indexed_since s0).

Lemma indexed_ext s s' :
  disk s' = disk s -> calls s' = calls s ->
  indexed_chunks_long s -> indexed_chunks_long s'.
Proof. unfold indexed_since. by intros -> ->. Qed.

Lemma indexed_insert path f s :
  (forall chunks, f = IndexFile chunks -> Forall long_enough chunks) ->
  indexed_chunks_long s ->
  indexed_chunks_long (set_disk (<[path := f]> (disk s)) s).
Proof.
  intros Hf [Hcalls Hdisk]. split; [done|]. state_simpl.
  intros p chunks. destruct (decide (path = p)) as [->|Hne].
  - rewrite lookup_insert_eq. intros [= ->]. right. by apply Hf.
  - rewrite lookup_insert_ne by done. apply Hdisk.
Qed.

Lemma indexed_delete path s :
  indexed_chunks_long s ->
  indexed_chunks_long (set_disk (delete path (disk s)) s).
Proof.
  intros [Hcalls Hdisk]. split; [done|]. state_simpl.
  intros p chunks. destruct (decide (path = p)) as [->|Hne].
  - by rewrite lookup_delete_eq.
  - rewrite lookup_delete_ne by done. apply Hdisk.
Qed.

Lemma indexed_log_call e s :
  (forall chunks, e = EvEmbed chunks -> Forall long_enough chunks) ->
  indexed_chunks_long s -> indexed_chunks_long (log_call e s).
Proof.
  intros He [Hcalls Hdisk]. split; [|done]. state_simpl.
  intros chunks [Hin|Hin%list_elem_of_singleton]%elem_of_app.
  - by apply Hcalls.
  - right. by apply He.
Qed.

Lemma indexed_set_docs d s :
  indexed_chunks_long s -> indexed_chunks_long (set_docs d s).
Proof. by apply indexed_ext. Qed.

Lemma indexed_save_metadata w s :
  indexed_chunks_long s -> indexed_chunks_long (_save_metadata w s).2.
Proof.
  intros H. rewrite save_metadata_spec.
  destruct w; cbn [snd]; [|done|]; by apply indexed_insert.
Qed.

Lemma indexed_reraise e s :
  indexed_chunks_long s -> indexed_chunks_long (reraise_value_error e s).2.
Proof. by rewrite (proj2 (reraise_value_error_docs e s)). Qed.

Lemma indexed_create_vectorstore em w chunks path s :
  Forall long_enough chunks ->
  indexed_chunks_long s ->
  indexed_chunks_long (RAGChain.create_vectorstore em w chunks path s).2.
Proof.
  intros Hlong Hs. rewrite create_vectorstore_spec. cbn zeta.
  assert (Hs1 : indexed_chunks_long (log_call (EvEmbed chunks) s))
    by (apply indexed_log_call; [by intros ? [= <-]|done]).
  destruct em as [[]|e].
  - destruct w as [|e|e]; cbn [snd].
    + apply indexed_insert; [by intros ? [= <-]|done].
    + by apply indexed_reraise.
    + apply indexed_reraise. by apply indexed_insert.
  - destruct e; try done; by apply indexed_reraise.
Qed.

Lemma indexed_process env path filename s :
  indexed_chunks_long s ->
  indexed_chunks_long (process_document env path filename s).2.
Proof.
  intros Hs. rewrite process_document_spec.
  destruct (load_and_split (fitz env)) as [[|c cs]|e] eqn:Hsplit;
    [done| |by apply indexed_reraise].
  apply load_and_split_long in Hsplit. cbn zeta.
  pose proof (indexed_create_vectorstore (embed env) (index_write env)
    (c :: cs) (lit "vectorstore/" ++ filename ++ lit "_vectorstore.pkl") s
    Hsplit Hs) as Hcreate.
  destruct (RAGChain.create_vectorstore _ _ _ _ s) as [[[]|e] s'];
    cbn [snd] in *; [|done|by apply indexed_reraise].
  unfold processed_state. cbn zeta.
  apply indexed_save_metadata, indexed_set_docs, indexed_insert;
    [by intros ? [= <-]|].
  apply indexed_log_call; [by intros ? [= <-]|done].
Qed.

Lemma indexed_delete_document env filename s :
  indexed_chunks_long s ->
  indexed_chunks_long (delete_document env filename s).2.
Proof.
  intros Hs. rewrite delete_document_spec.
  destruct (dict_get filename (processed_docs s)) as [info|]; [|done].
  cbn zeta.
  assert (Hs1 : indexed_chunks_long
            (set_disk (delete (vectorstore_path info) (disk s)) s))
    by by apply indexed_delete.
  assert (Hdel : indexed_chunks_long
            (deleted_state (del_meta_write env) filename info s)).
  { unfold deleted_state. cbn zeta.
    by apply indexed_save_metadata, indexed_set_docs, indexed_delete. }
  repeat match goal with
    | |- context [match ?x with _ => _ end] => destruct x
    end; done.
Qed.

Lemma indexed_load_if_empty r s :
  indexed_chunks_long s -> indexed_chunks_long (load_if_empty r s).2.
Proof.
  apply indexed_ext; [apply load_if_empty_disk|apply load_if_empty_calls].
Qed.

Lemma indexed_query_document env question filename s :
  indexed_chunks_long s ->
  indexed_chunks_long (query_document env question filename s).2.
Proof.
  intros Hs%(indexed_load_if_empty (meta_read env)).
  rewrite query_document_spec. unfold query_loaded.
  destruct (load_if_empty (meta_read env) s) as [u s1]. cbn [snd] in *.
  destruct (resolved_filename filename (processed_docs s1)) as [[|c f]|];
    try done.
  destruct (dict_get (c :: f) (processed_docs s1)) as [info|]; [|done].
  destruct (disk s1 !! vectorstore_path info) as [g|] eqn:Hg; [|done].
  rewrite rag_query_spec, Hg.
  destruct (index_read env); [|done].
  destruct g; try done. cbn zeta.
  assert (Hs2 : indexed_chunks_long (log_call (EvQA question chunks) s1))
    by by apply indexed_log_call.
  destruct (qa env) as [result|e]; [done|by destruct e].
Qed.

Lemma indexed_exec o s :
  indexed_chunks_long s ->
  indexed_chunks_long (Run.exec split_text enoent_msg repr_keys o s).
Proof.
  destruct o; cbn [Run.exec].
  - apply indexed_process.
  - apply indexed_delete_document.
  - apply indexed_query_document.
  - unfold get_processed_documents. cbv [bind get_state ret].
    pose proof (load_if_empty_returns r s) as Hret.
    intros Hs%(indexed_load_if_empty r).
    destruct (load_if_empty r s) as [u s1]. cbn [fst snd] in *. by subst u.
Qed.

End Since.

Lemma indexed_since_refl s : indexed_since s s.
Proof. split; intros; by left. Qed.

Lemma indexed_run s0 ops s :
  indexed_since s0 s ->
  indexed_since s0 (Run.run split_text enoent_msg repr_keys ops s).
Proof.
  revert s. induction ops as [|o ops IH]; intros s Hs; cbn [Run.run]; [done|].
  by apply IH, indexed_exec.
Qed.

(** C6. The chunks [split_text_into_chunks] returns all have a trimmed
    length above 50; and whatever the sequence of operations and the state
    it starts from, every chunk handed to [FAISS.from_documents] during the
    sequence and every chunk of a vector store that the sequence leaves on
    disk and did not find there has a trimmed length above 50. *)
Theorem short_chunks_never_indexed :
  (forall text chunks,
     PDFLoader.split_text_into_chunks split_text text = Ret chunks ->
     Forall long_enough chunks) /\
  (forall ops s,
     indexed_since s (Run.run split_text enoent_msg repr_keys ops s)).
Proof.
  split; [apply split_text_into_chunks_long|].
  intros ops s. apply indexed_run, indexed_since_refl.
Qed.

(** ** The document a query without [filename] addresses *)

Local Abbreviation exec := (Run.exec split_text enoent_msg repr_keys).
Local Abbreviation run := (Run.run split_text enoent_msg repr_keys).
Local Abbreviation returns_true := (Run.returns_true split_text).
Local Abbreviation last_processed :=
  (Run.last_processed split_text enoent_msg repr_keys).
Local Abbreviation undisturbed :=
  (Run.undisturbed split_text enoent_msg repr_keys).

Lemma run_app ops1 ops2 s : run (ops1 ++ ops2) s = run ops2 (run ops1 s).
Proof.
  revert s. induction ops1 as [|o ops1 IH]; intros s; cbn; [done|apply IH].
Qed.

Lemma last_processed_app ops1 ops2 s acc :
  last_processed (ops1 ++ ops2) s acc =
    last_processed ops2 (run ops1 s) (last_processed ops1 s acc).
Proof.
  revert s acc. induction ops1 as [|o ops1 IH]; intros s acc; cbn; [done|].
  apply IH.
Qed.

Lemma last_key_del (d : list (str * doc_info)) f g :
  last (dict_keys d) = Some f -> g <> f ->
  last (dict_keys (dict_del g d)) = Some f.
Proof.
  intros Hlast Hne.
  destruct d as [|kv d _] using rev_ind; [done|].
  destruct kv as [k v]. rewrite dict_keys_snoc in Hlast.
  injection Hlast as ->.
  rewrite dict_del_snoc by done. apply dict_keys_snoc.
Qed.

Lemma last_key_nonempty (d : list (str * doc_info)) f :
  last (dict_keys d) = Some f -> d <> [].
Proof. by destruct d. Qed.

(** A query or a listing leaves a handler that knows a document as it is,
    but for the provider calls. *)
Lemma query_document_docs env question filename s :
  processed_docs s <> [] ->
  processed_docs (query_document env question filename s).2 = processed_docs s.
Proof.
  intros Hne. rewrite query_document_spec, load_if_empty_nonempty by done.
  cbn [snd]. unfold query_loaded.
  destruct (resolved_filename filename (processed_docs s)) as [[|c f]|];
    try done.
  destruct (dict_get (c :: f) (processed_docs s)) as [info|]; [|done].
  destruct (disk s !! vectorstore_path info) as [g|] eqn:Hg; [|done].
  rewrite rag_query_spec, Hg.
  destruct (index_read env); [|done].
  destruct g; try done.
  destruct (qa env) as [result|e]; [done|by destruct e].
Qed.

Lemma delete_document_docs env filename s :
  processed_docs (delete_document env filename s).2 =
    match (delete_document env filename s).1 with
    | Ret true => dict_del filename (processed_docs s)
    | _ => processed_docs s
    end.
Proof.
  rewrite delete_document_spec.
  destruct (dict_get filename (processed_docs s)) as [info|]; [|done].
  cbn zeta. state_simpl.
  destruct (disk s !! vectorstore_path info), (rm_vectorstore env);
    cbn [fst snd]; try done.
  all: destruct (delete _ _ !! file_path info), (rm_file env);
    cbn [fst snd]; try done; apply deleted_state_docs.
Qed.

(** The last key stays the last key along calls that neither process a
    document with success nor delete that key. *)
Lemma undisturbed_last_key f ops s :
  last (dict_keys (processed_docs s)) = Some f ->
  undisturbed f ops s ->
  last (dict_keys (processed_docs (run ops s))) = Some f /\
  forall acc, last_processed ops s acc = acc.
Proof.
  revert s. induction ops as [|o ops IH]; intros s Hlast Hops; [done|].
  cbn [Run.undisturbed] in Hops. destruct Hops as [Ho Hops].
  cbn [Run.run Run.last_processed].
  assert (Hexec : last (dict_keys (processed_docs (exec o s))) = Some f).
  { destruct o as [env path g|env g|env q fn|r]; cbn [Run.exec].
    - rewrite process_document_not_true; [done|].
      unfold Run.returns_true in Ho.
      by destruct (process_document env path g s).1 as [[]|].
    - rewrite delete_document_docs. unfold Run.returns_true in Ho.
      destruct (delete_document env g s).1 as [[]|]; try done.
      destruct Ho as [Hne|]; [|done]. by apply last_key_del.
    - rewrite query_document_docs; [done|]. by eapply last_key_nonempty.
    - unfold get_processed_documents. cbv [bind get_state ret].
      rewrite load_if_empty_nonempty by by eapply last_key_nonempty.
      done. }
  destruct (IH _ Hexec Hops) as [Hrun Hacc]. split; [done|].
  intros acc. rewrite Hacc.
  destruct o; try done. by rewrite Ho.
Qed.

Lemma query_loaded_fixed env question filename s f :
  resolved_filename filename (processed_docs s) = Some f ->
  query_loaded env question filename s = query_loaded env question (Some f) s.
Proof.
  intros Hres. unfold query_loaded. rewrite Hres.
  destruct f as [|c f]; [|done].
  unfold resolved_filename in *. destruct filename as [[|c g]|]; try done.
  all: by rewrite Hres.
Qed.

Lemma query_loaded_document env question filename s f r s' :
  resolved_filename filename (processed_docs s) = Some f ->
  query_loaded env question filename s = (Ret r, s') -> document r = f.
Proof.
  intros Hres. unfold query_loaded. rewrite Hres.
  destruct f as [|c f]; [done|].
  destruct (dict_get (c :: f) (processed_docs s)) as [info|]; [|done].
  destruct (disk s !! vectorstore_path info) as [g|]; [|done].
  destruct (RAGChain.query _ _ _ _ _ s) as [[resp|e] s'']; [|done].
  by intros [= <- <-].
Qed.

(** Processing again a document that is known replaces its record where it
    stands: the order of the keys, hence the document a query without
    [filename] addresses, is as before. *)
Lemma reprocess_keeps_key_order env path f s info :
  dict_get f (processed_docs s) = Some info ->
  dict_keys (processed_docs (process_document env path f s).2) =
    dict_keys (processed_docs s).
Proof.
  intros Hget.
  destruct (process_document env path f s).1 as [[]|] eqn:Hret.
  - destruct (process_document_true env path f s Hret)
      as (chunks & _ & _ & _ & _ & ->).
    rewrite processed_state_docs. by eapply dict_set_present.
  - rewrite process_document_not_true; [done|by rewrite Hret].
  - rewrite process_document_not_true; [done|by rewrite Hret].
Qed.

(** C1, as the code has it. Take any sequence of calls in which the last
    [process_document] call that returned [True] was for a [filename] that
    was not a key of [processed_docs] when it was made, and no later
    [delete_document] of that [filename] returned [True]. Then that
    [filename] is the last key: a query without [filename] is the query
    with that [filename], and a response names it as its [document]. *)
Theorem default_query_resolves_to_last_inserted
    ops1 env path f ops2 s :
  let s1 := run ops1 s in
  let s2 := exec (Run.Process env path f) s1 in
  let s3 := run ops2 s2 in
  dict_get f (processed_docs s1) = None ->
  returns_true (Run.Process env path f) s1 = true ->
  undisturbed f ops2 s2 ->
  last_processed (ops1 ++ Run.Process env path f :: ops2) s None = Some f /\
  s3 = run (ops1 ++ Run.Process env path f :: ops2) s /\
  resolved_filename None (processed_docs s3) = Some f /\
  forall qenv question,
    query_document qenv question None s3 =
      query_document qenv question (Some f) s3 /\
    forall r s',
      query_document qenv question None s3 = (Ret r, s') -> document r = f.
Proof.
  intros s1 s2 s3 Hfresh Htrue Hops.
  assert (Hlast2 : last (dict_keys (processed_docs s2)) = Some f).
  { subst s2. cbn [Run.exec]. unfold Run.returns_true in Htrue.
    destruct (process_document_true env path f s1)
      as (chunks & _ & _ & _ & _ & ->).
    { by destruct (process_document env path f s1).1 as [[]|]. }
    rewrite processed_state_docs, dict_set_fresh by done.
    apply dict_keys_snoc. }
  destruct (undisturbed_last_key f ops2 s2 Hlast2 Hops) as [Hlast3 Hacc].
  fold s3 in Hlast3.
  split; [|split; [|split]].
  - rewrite last_processed_app. cbn [Run.last_processed].
    fold s1. rewrite Htrue. fold s2. apply Hacc.
  - by rewrite run_app.
  - done.
  - intros qenv question.
    assert (Hne : processed_docs s3 <> []) by by eapply last_key_nonempty.
    rewrite !query_document_spec, load_if_empty_nonempty by done.
    cbn [snd]. split.
    + by apply query_loaded_fixed.
    + intros r s'. by apply query_loaded_document.
Qed.

End Properties.

(** ** The endpoint [POST /query] *)

Section EndpointProperties.
Variable enoent_msg : str -> str.
Variable repr_keys : list str -> str.
Variable str_lower : str -> str.
Variable eval_error : str -> result (option str).
Variable str_http : Z -> str -> str.

Local Abbreviation post_query :=
  (Main.query_document enoent_msg repr_keys str_lower eval_error str_http).

(** The [HTTPException] with status 400 that the endpoint raises for a blank
    question is raised inside the [try] block; it is not a [ValueError], so
    the clause [except Exception] catches it and raises the [HTTPException]
    with status 500 in its place. The handler is not called. *)
Lemma post_query_blank env request s :
  forallb isspace (Main.question request) = true ->
  post_query env request s =
    (Raise (HTTPException 500
              (lit "Error querying document: "
               ++ str_http 400 (lit "Question cannot be empty"))), s).
Proof.
  intros Hblank. unfold Main.query_document.
  cbv [bind try_except raise]. by rewrite (strip_spaces _ Hblank).
Qed.

(** C3, on the code. For the empty question and for a question of three
    spaces, whatever the file name and the state, the response of
    [POST /query] has status 500, not 400. *)
Theorem post_query_blank_question_status env filename s :
  Main.http_status
    (post_query env {| Main.question := []; Main.filename := filename |} s).1
    = 500%Z /\
  Main.http_status
    (post_query env {| Main.question := lit "   ";
                       Main.filename := filename |} s).1
    = 500%Z.
Proof. split; by rewrite post_query_blank. Qed.

End EndpointProperties.

(** * The properties on sample runs *)

Lemma process_blank_text_fails_witness :
  PDFLoader.load_and_split sample_split (DocumentHandler.fitz process_blank)
    = Ret [] /\
  process_document' process_blank (upload doc_a) doc_a empty_state
    = (Ret false, empty_state).
Proof.
  apply (process_blank_text_fails sample_split process_blank (upload doc_a)
           doc_a empty_state []); reflexivity.
Defined.

Lemma process_auth_failure_witness :
  let r := process_document' process_auth_fails (upload doc_a) doc_a
             empty_state in
  r.1 = Raise (ValueError RAGChain.auth_msg) /\
  r.1 <> Ret false /\
  processed_docs r.2 = [] /\
  disk r.2 = ∅ /\
  calls r.2 = [EvEmbed [sample_chunk]].
Proof.
  apply (process_auth_failure_propagates sample_split process_auth_fails
           (upload doc_a) doc_a empty_state [sample_chunk]
           (lit "Incorrect API key provided"));
    [vm_compute; reflexivity | discriminate | reflexivity].
Defined.

Lemma query_missing_index_witness :
  query_document' query_ok (lit "What is X?") (Some doc_a) index_missing_state
    = (Raise (FileNotFoundError
                (lit "Vectorstore missing for document: " ++ doc_a)),
       index_missing_state) /\
  calls index_missing_state = calls index_missing_state.
Proof.
  apply (query_missing_index sample_enoent sample_repr query_ok
           (lit "What is X?") (Some doc_a) index_missing_state doc_a
           (sample_info doc_a));
    [vm_compute; reflexivity | discriminate
    | vm_compute; reflexivity | vm_compute; reflexivity].
Defined.

Lemma query_sources_truncated_witness :
  exists result,
    DocumentHandler.qa query_ok = Ret result /\
    Forall2
      (fun src doc =>
         let text := RAGChain.page_content doc in
         RAGChain.content src = truncated text /\
         (length (RAGChain.content src) <= 203)%nat /\
         (RAGChain.content src = text ->
          (length text <= 200)%nat \/
          (length text = 203%nat /\ drop 200 text = lit "...")))
      (DocumentHandler.sources
         {| DocumentHandler.answer := lit "X is a widget";
            DocumentHandler.sources :=
              sources_of (default [] (RAGChain.source_documents sample_qa));
            DocumentHandler.document := doc_a |})
      (default [] (RAGChain.source_documents result)).
Proof.
  eapply (query_sources_truncated sample_enoent sample_repr query_ok
            (lit "What is X?") None
            (after [Run.Process process_ok (upload doc_a) doc_a])).
  vm_compute. reflexivity.
Defined.

(** C5, as stated, fails: a retrieved chunk of 203 characters that ends in
    three dots is longer than 200 characters, and the response carries its
    full text. *)
Lemma dotted_chunk_returned_in_full :
  (200 < length dotted_chunk)%nat /\
  exists r s',
    query_document' query_dotted (lit "What is X?") None
      (after [Run.Process process_ok (upload doc_a) doc_a]) = (Ret r, s') /\
    RAGChain.content <$> DocumentHandler.sources r = [dotted_chunk].
Proof.
  split; [vm_compute; lia|].
  eexists _, _. split; vm_compute; reflexivity.
Defined.

Lemma short_chunks_never_indexed_witness :
  Forall long_enough [sample_chunk] /\
  indexed_since empty_state
    (after [Run.Process process_ok (upload doc_a) doc_a;
            Run.Query query_ok (lit "What is X?") None;
            Run.Delete delete_ok doc_a]).
Proof.
  destruct (short_chunks_never_indexed sample_split sample_enoent sample_repr)
    as [Hsplit Hrun].
  split.
  - apply (Hsplit sample_chunk).
    vm_compute. reflexivity.
  - apply Hrun.
Defined.

Lemma delete_document_correct_witness :
  DocumentHandler.delete_document delete_ok doc_b one_document
    = (Ret false, one_document) /\
  let r := DocumentHandler.delete_document delete_ok doc_a one_document in
  r.1 = Ret true /\
  processed_docs r.2 = [] /\
  disk r.2 !! index_of doc_a = None /\
  disk r.2 !! upload doc_a = None /\
  disk r.2 !! DocumentHandler.metadata_path = Some (MetaFile []).
Proof.
  split.
  - apply (delete_document_correct delete_ok doc_b one_document).
    vm_compute. reflexivity.
  - destruct (delete_document_correct delete_ok doc_a one_document)
      as [_ Hknown].
    assert (Hget : dict_get doc_a (processed_docs one_document)
              = Some (sample_info doc_a)) by (vm_compute; reflexivity).
    destruct (Hknown (sample_info doc_a) Hget (or_intror eq_refl)
                (or_intror eq_refl)) as (Hret & Hdocs & _ & Hv & Hf & Hm).
    split; [exact Hret|]. split; [exact Hdocs|].
    split; [apply Hv; discriminate|]. split; [apply Hf; discriminate|].
    rewrite (Hm eq_refl). rewrite Hdocs. reflexivity.
Defined.

Lemma process_succeeds_when_save_fails_witness :
  let r := process_document' process_save_fails (upload doc_a) doc_a
             empty_state in
  r.1 = Ret true /\
  dict_get doc_a (processed_docs r.2) = Some (sample_info doc_a) /\
  disk r.2 !! DocumentHandler.metadata_path = None.
Proof.
  assert (Hsplit : PDFLoader.load_and_split sample_split
            (DocumentHandler.fitz process_save_fails) = Ret [sample_chunk])
    by (vm_compute; reflexivity).
  assert (Hne : [sample_chunk] <> []) by discriminate.
  assert (Hfail : DocumentHandler.meta_write process_save_fails <> Written)
    by discriminate.
  destruct (process_succeeds_when_save_fails sample_split process_save_fails
              (upload doc_a) doc_a empty_state [sample_chunk]
              Hsplit Hne eq_refl eq_refl Hfail)
    as (Hret & _ & _ & Hget & Hdisk & _).
  split; [exact Hret|]. split; [exact Hget | exact Hdisk].
Defined.

Lemma delete_document_removal_fails_witness :
  let r := DocumentHandler.delete_document delete_file_fails doc_a
             one_document in
  r.1 = Ret false /\
  dict_get doc_a (processed_docs r.2) = Some (sample_info doc_a) /\
  disk r.2 = delete (index_of doc_a) (disk one_document).
Proof.
  assert (Hget : dict_get doc_a (processed_docs one_document)
            = Some (sample_info doc_a)) by (vm_compute; reflexivity).
  assert (Hfile : is_Some (delete (vectorstore_path (sample_info doc_a))
                             (disk one_document)
                           !! file_path (sample_info doc_a)))
    by (exists RawFile; vm_compute; reflexivity).
  destruct (delete_document_removal_fails delete_file_fails doc_a one_document
              (sample_info doc_a) (OtherException (lit "Permission denied"))
              Hget
              (or_intror (conj (or_intror eq_refl) (conj Hfile eq_refl))))
    as (Hret & _ & Hget' & _ & _ & Hdisk).
  split; [exact Hret|]. split; [exact Hget'|].
  apply Hdisk. right. reflexivity.
Defined.

(** C1, as stated, fails, in two ways. When [a.pdf], [b.pdf] and [a.pdf]
    again are processed, each with success, the last document processed is
    [a.pdf], and a query without [filename] is answered from [b.pdf]:
    assigning to a key that is present does not move it. When [a.pdf] and
    [b.pdf] are processed and [b.pdf] is deleted, the last document processed
    is [b.pdf], and the query is answered from [a.pdf]. *)
Lemma default_query_not_last_processed :
  (let ops := [Run.Process process_ok (upload doc_a) doc_a;
               Run.Process process_ok (upload doc_b) doc_b;
               Run.Process process_ok (upload doc_a) doc_a] in
   Run.last_processed sample_split sample_enoent sample_repr ops empty_state
     None = Some doc_a /\
   answered_document
     (query_document' query_ok (lit "What is X?") None (after ops))
     = Some doc_b) /\
  (let ops := [Run.Process process_ok (upload doc_a) doc_a;
               Run.Process process_ok (upload doc_b) doc_b;
               Run.Delete delete_ok doc_b] in
   Run.last_processed sample_split sample_enoent sample_repr ops empty_state
     None = Some doc_b /\
   answered_document
     (query_document' query_ok (lit "What is X?") None (after ops))
     = Some doc_a).
Proof.
  split; split; vm_compute; reflexivity.
Defined.

Lemma default_query_resolves_witness :
  let ops := [Run.Process process_ok (upload doc_a) doc_a;
              Run.Process process_ok (upload doc_b) doc_b;
              Run.Delete delete_ok doc_a;
              Run.Process process_auth_fails (upload doc_c) doc_c;
              Run.Query query_ok (lit "What is X?") None] in
  Run.last_processed sample_split sample_enoent sample_repr ops empty_state
    None = Some doc_b /\
  DocumentHandler.resolved_filename None (processed_docs (after ops))
    = Some doc_b /\
  forall qenv question,
    query_document' qenv question None (after ops)
      = query_document' qenv question (Some doc_b) (after ops).
Proof.
  intros ops.
  destruct (default_query_resolves_to_last_inserted sample_split sample_enoent
              sample_repr
              [Run.Process process_ok (upload doc_a) doc_a]
              process_ok (upload doc_b) doc_b
              [Run.Delete delete_ok doc_a;
               Run.Process process_auth_fails (upload doc_c) doc_c;
               Run.Query query_ok (lit "What is X?") None]
              empty_state)
    as (Hlast & Hrun & Hres & Hquery).
  - vm_compute. reflexivity.
  - vm_compute. reflexivity.
  - cbn [Run.undisturbed].
    split; [left; discriminate|].
    split; [vm_compute; reflexivity|].
    split; exact I.
  - split; [exact Hlast|].
    split; [exact Hres|].
    intros qenv question. apply (Hquery qenv question).
Defined.

(** C3 on sample answers of the outside world: the response to a question
    of three spaces has status 500. *)
Lemma post_query_blank_question_sample :
  Main.http_status
    (post_query' query_ok
       {| Main.question := lit "   "; Main.filename := Some doc_a |}
       one_document).1 = 500%Z.
Proof. vm_compute. reflexivity. Qed.

(** * Further properties *)

(** ** Strings *)

Lemma lstrip_head (s : str) c t : lstrip s = c :: t -> isspace c = false.
Proof.
  induction s as [|a s IH]; cbn [lstrip]; [done|].
  destruct (isspace a) eqn:Ha; [exact IH|]. by intros [= <- <-].
Qed.

Lemma lstrip_nil (s : str) : lstrip s = [] -> forallb isspace s = true.
Proof.
  induction s as [|a s IH]; cbn [lstrip forallb]; [done|].
  destruct (isspace a); [exact IH|done].
Qed.

Lemma Forall_lstrip (P : N -> Prop) (s : str) :
  Forall P s -> Forall P (lstrip s).
Proof.
  induction 1 as [|a s Ha Hs IH]; cbn [lstrip]; [done|].
  destruct (isspace a); [exact IH|by constructor].
Qed.

Lemma lstrip_last (s : str) : lstrip s <> [] -> last (lstrip s) = last s.
Proof.
  induction s as [|a s IH]; cbn [lstrip]; [done|].
  destruct (isspace a); [|done].
  intros Hne. rewrite (IH Hne), last_cons.
  destruct (last s) eqn:Hl; [done|].
  apply last_None in Hl. by subst s.
Qed.

Lemma forallb_reverse (f : N -> bool) (s : str) :
  forallb f (reverse s) = forallb f s.
Proof.
  apply eq_true_iff_eq. rewrite !forallb_forall.
  split; intros H x Hx; apply H; apply list_elem_of_In;
    apply list_elem_of_In in Hx; by apply elem_of_reverse.
Qed.

(** [s.strip()] is empty exactly when [s] is made of whitespace. *)
Lemma strip_nil_iff (s : str) : strip s = [] <-> forallb isspace s = true.
Proof.
  split; [|apply strip_spaces].
  unfold strip, rstrip. intros H.
  apply (f_equal reverse) in H. rewrite reverse_involutive in H.
  change (reverse []) with (@nil N) in H.
  apply lstrip_nil in H. rewrite forallb_reverse in H.
  destruct (lstrip s) as [|c t] eqn:Hs; [by apply lstrip_nil|].
  apply lstrip_head in Hs. cbn [forallb] in H. by rewrite Hs in H.
Qed.

Lemma Forall_strip (P : N -> Prop) (s : str) : Forall P s -> Forall P (strip s).
Proof.
  intros H. unfold strip, rstrip.
  by apply Forall_reverse, Forall_lstrip, Forall_reverse, Forall_lstrip.
Qed.

(** [s.strip()] neither starts nor ends with whitespace. *)
Lemma strip_ends (s : str) c :
  head (strip s) = Some c \/ last (strip s) = Some c -> isspace c = false.
Proof.
  unfold strip, rstrip. rewrite head_reverse, last_reverse.
  destruct (lstrip (reverse (lstrip s))) as [|a t] eqn:Hr; [by intros [|]|].
  intros [H|H].
  - rewrite <- Hr, lstrip_last, last_reverse in H by by rewrite Hr.
    destruct (lstrip s) as [|b u] eqn:Hs; [done|].
    injection H as <-. by eapply lstrip_head.
  - injection H as <-. by eapply lstrip_head.
Qed.

Lemma truthy_strip_strip (s : str) :
  truthy (strip (strip s)) = truthy (strip s).
Proof.
  destruct (strip (strip s)) as [|c t] eqn:H.
  - apply strip_nil_iff in H.
    destruct (strip s) as [|a u] eqn:Hs using rev_ind; [done|].
    assert (isspace a = false) as Ha.
    { apply (strip_ends s). right. rewrite Hs. apply last_snoc. }
    rewrite forallb_app in H. cbn in H. rewrite Ha in H.
    by destruct (forallb isspace u).
  - destruct (strip s); [done|done].
Qed.

(** ** The PDF loader *)

Lemma sub_whitespace_spaces in_run text :
  Forall (fun c => isspace c = true -> c = 32)
    (PDFLoader.sub_whitespace in_run text).
Proof.
  revert in_run. induction text as [|c text IH]; intros in_run;
    cbn [PDFLoader.sub_whitespace]; [done|].
  destruct (isspace c) eqn:Hc.
  - destruct in_run; [apply IH|]. constructor; [done|apply IH].
  - constructor; [congruence|apply IH].
Qed.

(** [replace2] goes through the text two characters at a time: a property
    of every text is proved for a text and for that text after one more
    character. *)
Lemma replace2_ind (Q : str -> Prop) :
  Q [] -> (forall x, Q [x]) ->
  (forall x y rest,
     Q rest -> Q (y :: rest) -> Q (x :: y :: rest)) ->
  forall s, Q s.
Proof.
  intros Hnil Hone Hstep s.
  enough (H : Q s /\ forall x, Q (x :: s)) by apply H.
  induction s as [|y s [IHs IHx]]; [by split|].
  split; [apply IHx|]. intros x. by apply Hstep.
Qed.

Lemma replace2_cons2 a b new x y (rest : str) :
  replace2 a b new (x :: y :: rest) =
    if (x =? a) && (y =? b) then new ++ replace2 a b new rest
    else x :: replace2 a b new (y :: rest).
Proof. reflexivity. Qed.

Lemma replace2_absent a b new (s : str) :
  a ∉ s -> replace2 a b new s = s.
Proof.
  induction s as [| |x y rest IHrest IHtl] using replace2_ind;
    [done..|].
  intros Hin. rewrite replace2_cons2.
  destruct (x =? a) eqn:Hx.
  - apply N.eqb_eq in Hx. subst x. exfalso. apply Hin. by left.
  - cbn [andb]. rewrite IHtl; [done|].
    intros H. apply Hin. by right.
Qed.

Lemma Forall_replace2 (P : N -> Prop) a b new (s : str) :
  Forall P new -> Forall P s -> Forall P (replace2 a b new s).
Proof.
  intros Hnew.
  induction s as [| |x y rest IHrest IHtl] using replace2_ind;
    [done..|].
  intros Hs. rewrite replace2_cons2.
  apply Forall_cons in Hs as [Hx Hs].
  destruct ((x =? a) && (y =? b)).
  - apply Forall_app. split; [done|]. apply IHrest.
    by apply Forall_cons in Hs as [_ Hs].
  - constructor; [done|by apply IHtl].
Qed.

(** What is left of a page once whitespace runs are collapsed and control
    characters are removed. *)
Lemma clean_char_filtered text :
  Forall clean_char
    (filter (fun c => negb (PDFLoader.special_char c))
       (PDFLoader.sub_whitespace false text)).
Proof.
  apply Forall_forall. intros c [Hc Hin]%list_elem_of_filter.
  split.
  - by destruct (PDFLoader.special_char c).
  - pose proof (sub_whitespace_spaces false text) as H.
    rewrite Forall_forall in H. by apply H.
Qed.

Lemma clean_text_collapsed text :
  let collapsed :=
    filter (fun c => negb (PDFLoader.special_char c))
      (PDFLoader.sub_whitespace false text) in
  replace2 10 45 [10; 8226; 32] collapsed = collapsed /\
  PDFLoader._clean_text text = strip (replace2 32 32 [32] collapsed).
Proof.
  intros collapsed.
  assert (H : replace2 10 45 [10; 8226; 32] collapsed = collapsed).
  { apply replace2_absent. intros Hin.
    pose proof (clean_char_filtered text) as Hclean.
    rewrite Forall_forall in Hclean.
    destruct (Hclean 10 Hin) as [_ Hspace]. by specialize (Hspace eq_refl). }
  split; [done|].
  unfold PDFLoader._clean_text. fold collapsed. by rewrite H.
Qed.

(** X2. In [_clean_text] the replacement of a newline followed by a hyphen
    by a bullet never changes the text: when it runs, every newline has
    already been turned into a space. The cleaned text is the text with
    whitespace runs collapsed and control characters removed, after the
    replacement of two spaces by one and [strip]. *)
Theorem clean_text_bullet_replacement_idle text :
  let collapsed :=
    filter (fun c => negb (PDFLoader.special_char c))
      (PDFLoader.sub_whitespace false text) in
  replace2 10 45 [10; 8226; 32] collapsed = collapsed /\
  PDFLoader._clean_text text = strip (replace2 32 32 [32] collapsed).
Proof. apply clean_text_collapsed. Qed.

(** X1. The text [_clean_text] returns holds no control character and no
    whitespace but the space (no newline, no tab, no non-breaking space), and
    it neither starts nor ends with a space. *)
Theorem clean_text_characters text :
  Forall clean_char (PDFLoader._clean_text text) /\
  (forall c,
     head (PDFLoader._clean_text text) = Some c \/
     last (PDFLoader._clean_text text) = Some c ->
     isspace c = false).
Proof.
  split; [|intros c; apply strip_ends].
  destruct (clean_text_collapsed text) as [_ ->].
  apply Forall_strip, Forall_replace2; [|apply clean_char_filtered].
  by repeat constructor.
Qed.

Lemma extract_pages_acc n pages acc :
  PDFLoader.extract_pages n pages acc =
    acc ++ PDFLoader.extract_pages n pages [].
Proof.
  revert n acc. induction pages as [|page rest IH]; intros n acc;
    cbn [PDFLoader.extract_pages].
  - by rewrite app_nil_r.
  - cbn zeta. destruct (truthy _); [|apply IH].
    match goal with
    | |- PDFLoader.extract_pages _ _ ?a
         = _ ++ PDFLoader.extract_pages _ _ ?b =>
        rewrite (IH _ a), (IH _ b)
    end.
    by rewrite !app_nil_l, !app_assoc.
Qed.

Lemma extract_pages_render n pages :
  PDFLoader.extract_pages n pages [] =
    concat (render_page <$> PDFLoader.pages_from n pages).
Proof.
  revert n. induction pages as [|page rest IH]; intros n;
    cbn [PDFLoader.extract_pages PDFLoader.pages_from]; [done|].
  cbn zeta. destruct (truthy _); [|apply IH].
  rewrite extract_pages_acc, IH. by rewrite app_nil_l.
Qed.

(** A page has text when its cleaned text is not empty. *)
Lemma clean_text_truthy page :
  truthy (strip (PDFLoader._clean_text page)) = true <->
  PDFLoader._clean_text page <> [].
Proof.
  unfold PDFLoader._clean_text. cbn zeta. rewrite truthy_strip_strip.
  by destruct (strip _).
Qed.

Lemma pages_from_elem n pages e :
  e ∈ PDFLoader.pages_from n pages <->
  exists i page,
    pages !! i = Some page /\
    PDFLoader._clean_text page <> [] /\
    e = {| PDFLoader.page_number := n + i + 1;
           PDFLoader.text := PDFLoader._clean_text page |}.
Proof.
  revert n. induction pages as [|page rest IH]; intros n;
    cbn [PDFLoader.pages_from].
  - split; [by intros ?%elem_of_nil|by intros (i & p & ? & _)].
  - cbn zeta.
    assert (Hrest : e ∈ PDFLoader.pages_from (S n) rest <->
              exists i p, rest !! i = Some p /\
                PDFLoader._clean_text p <> [] /\
                e = {| PDFLoader.page_number := n + S i + 1;
                       PDFLoader.text := PDFLoader._clean_text p |}).
    { rewrite IH.
      split; intros (i & p & Hi & Hp & ->); exists i, p;
        (split; [done|]); (split; [done|]); f_equal; lia. }
    destruct (truthy (strip (PDFLoader._clean_text page))) eqn:Ht.
    + apply clean_text_truthy in Ht.
      rewrite elem_of_cons, Hrest. split.
      * intros [->|(i & p & Hi & Hp & ->)].
        -- exists 0%nat, page. by rewrite Nat.add_0_r.
        -- by exists (S i), p.
      * intros ([|i] & p & Hi & Hp & ->).
        -- left. injection Hi as <-. by rewrite Nat.add_0_r.
        -- right. by exists i, p.
    + assert (Hempty : PDFLoader._clean_text page = []).
      { destruct (PDFLoader._clean_text page) eqn:Hc; [done|].
        assert (truthy (strip (PDFLoader._clean_text page)) = true) as Hc'
          by (apply clean_text_truthy; by rewrite Hc).
        rewrite Hc in Hc'. congruence. }
      rewrite Hrest. split.
      * intros (i & p & Hi & Hp & ->). by exists (S i), p.
      * intros ([|i] & p & Hi & Hp & ->).
        -- injection Hi as <-. done.
        -- by exists i, p.
Qed.

Lemma pages_from_sorted n pages :
  StronglySorted
    (fun a b => (PDFLoader.page_number a < PDFLoader.page_number b)%nat)
    (PDFLoader.pages_from n pages).
Proof.
  revert n. induction pages as [|page rest IH]; intros n;
    cbn [PDFLoader.pages_from]; [constructor|].
  cbn zeta. destruct (truthy _); [|apply IH].
  constructor; [apply IH|].
  apply Forall_forall. intros e (i & p & _ & _ & ->)%pages_from_elem.
  cbn. lia.
Qed.

(** X3. The entries of [extract_text_by_page] are the pages whose cleaned
    text is not empty, each with its position in the document counted from
    1 (pages without text are skipped but counted) and its cleaned text, in
    the order of the document; when the PDF library raises, the list is
    empty. *)
Theorem extract_text_by_page_entries fitz :
  (forall e,
     e ∈ PDFLoader.extract_text_by_page fitz <->
     exists pages i page,
       fitz = Ret pages /\ pages !! i = Some page /\
       PDFLoader._clean_text page <> [] /\
       e = {| PDFLoader.page_number := i + 1;
              PDFLoader.text := PDFLoader._clean_text page |}) /\
  StronglySorted
    (fun a b => (PDFLoader.page_number a < PDFLoader.page_number b)%nat)
    (PDFLoader.extract_text_by_page fitz).
Proof.
  destruct fitz as [pages|ex]; cbn [PDFLoader.extract_text_by_page].
  - split; [|apply pages_from_sorted].
    intros e. rewrite pages_from_elem. split.
    + intros (i & p & ? & ? & ?). by exists pages, i, p.
    + intros (ps & i & p & [= <-] & ? & ? & ?). by exists i, p.
  - split; [|constructor].
    intros e. split; [by intros ?%elem_of_nil|by intros (? & ? & ? & ? & _)].
Qed.

(** X4. The text [extract_text_from_pdf] returns is made of one block for
    each entry of [extract_text_by_page], in the same order: a line
    [--- Page n ---] with the number of the page, then the cleaned text of
    the page. An exception of the PDF library is raised again (where
    [extract_text_by_page] returns the empty list). *)
Theorem extract_text_from_entries fitz :
  PDFLoader.extract_text_from_pdf fitz =
    match fitz with
    | Ret _ =>
        Ret (concat (render_page <$> PDFLoader.extract_text_by_page fitz))
    | Raise e => Raise e
    end.
Proof.
  destruct fitz as [pages|e]; [|done].
  cbn [PDFLoader.extract_text_from_pdf PDFLoader.extract_text_by_page].
  by rewrite extract_pages_render.
Qed.

(** X5. The text extracted from a document is never blank without being
    empty, and it is empty exactly when no page has text: the test
    [not text.strip()] of [load_and_split] succeeds for the documents
    without any text and for no other. *)
Theorem extracted_text_blank_iff fitz text :
  PDFLoader.extract_text_from_pdf fitz = Ret text ->
  (strip text = [] <-> text = []) /\
  (text = [] <-> PDFLoader.extract_text_by_page fitz = []).
Proof.
  destruct fitz as [pages|e]; [|done].
  cbn [PDFLoader.extract_text_from_pdf PDFLoader.extract_text_by_page].
  rewrite extract_pages_render. intros [= <-].
  destruct (PDFLoader.pages_from 0 pages) as [|e entries]; [done|].
  cbn [fmap list_fmap concat].
  assert (Hblock :
    render_page e ++ concat (render_page <$> entries) =
      10 :: 45 :: ((lit "-- Page " ++ str_of_nat (PDFLoader.page_number e)
                    ++ lit " ---" ++ [10]) ++ (PDFLoader.text e ++ [10]))
              ++ concat (render_page <$> entries)) by reflexivity.
  rewrite Hblock. split; split; try done.
  intros H%strip_nil_iff. cbn in H. done.
Qed.

(** ** Dictionaries, continued *)

Section MoreDictFacts.
Context {V : Type}.
Implicit Types (d : list (str * V)) (k : str) (v : V).

Lemma dict_get_set_ne k k' v d :
  k <> k' -> dict_get k' (dict_set k v d) = dict_get k' d.
Proof.
  intros Hne. induction d as [|[k0 v0] d IH]; simpl.
  - by rewrite decide_False.
  - destruct (decide (k0 = k)) as [->|]; simpl; [|by rewrite IH].
    by rewrite !decide_False.
Qed.

Lemma dict_get_None_keys k d : dict_get k d = None <-> k ∉ dict_keys d.
Proof.
  unfold dict_keys. induction d as [|[k0 v0] d IH]; simpl.
  - split; [intros _; apply not_elem_of_nil|done].
  - rewrite not_elem_of_cons. destruct (decide (k0 = k)) as [->|Hne].
    + split; [done|by intros [? _]].
    + rewrite IH. split; [by intros ?; split|by intros [_ ?]].
Qed.

Lemma dict_keys_set k v d :
  dict_keys (dict_set k v d) =
    if dict_mem k d then dict_keys d else dict_keys d ++ [k].
Proof.
  unfold dict_mem. destruct (dict_get k d) as [v0|] eqn:Hget.
  - by eapply dict_set_present.
  - rewrite dict_set_fresh by done. unfold dict_keys. by rewrite fmap_app.
Qed.

Lemma dict_keys_del k d :
  dict_keys (dict_del k d) = filter (fun g => g <> k) (dict_keys d).
Proof.
  unfold dict_keys. induction d as [|[k0 v0] d IH]; simpl; [done|].
  destruct (decide (k0 = k)) as [->|Hne].
  - rewrite filter_cons_False by (by intros ?). apply IH.
  - rewrite filter_cons_True by done. simpl. f_equal. apply IH.
Qed.
End MoreDictFacts.

(** ** The handler, continued *)

Section FurtherProperties.
Variable split_text : str -> result (list str).
Variable enoent_msg : str -> str.
Variable repr_keys : list str -> str.

Import DocumentHandler.

Local Abbreviation load_and_split := (PDFLoader.load_and_split split_text).
Local Abbreviation process_document :=
  (DocumentHandler.process_document split_text).
Local Abbreviation query_document :=
  (DocumentHandler.query_document enoent_msg repr_keys).
Local Abbreviation query_loaded := (query_loaded enoent_msg repr_keys).
Local Abbreviation exec := (Run.exec split_text enoent_msg repr_keys).
Local Abbreviation returns_true := (Run.returns_true split_text).

(** X6. [get_similar_chunks] never raises and leaves the state as it is.
    When the vector store is on disk and readable and the search answers,
    it returns one entry for each document found, in the same order, with
    the full text of the chunk (it is not cut at 200 characters) and no
    score; in every other case it returns the empty list. *)
Theorem get_similar_chunks_best_effort r search question path k s :
  exists chunks,
    RAGChain.get_similar_chunks enoent_msg r search question path k s
      = (Ret chunks, s) /\
    match disk s !! path, r, search with
    | Some (IndexFile _), ReadOk, Ret docs =>
        RAGChain.chunk_content <$> chunks = RAGChain.page_content <$> docs /\
        RAGChain.chunk_metadata <$> chunks = RAGChain.metadata <$> docs /\
        Forall (fun c => RAGChain.similarity_score c = None) chunks
    | _, _, _ => chunks = []
    end.
Proof.
  unfold RAGChain.get_similar_chunks, RAGChain.load_vectorstore.
  cbv [bind try_except ret lift].
  destruct (disk s !! path) as [[index|docs|]|], r as [|e];
    try (by eexists).
  destruct search as [docs|e]; [|by eexists].
  eexists. split; [done|].
  rewrite <- !list_fmap_compose. repeat split.
  apply Forall_fmap, Forall_forall. by intros.
Qed.

(** X7. When [FAISS.from_documents] raises an exception of the provider,
    [process_document] raises the [ValueError] with the message of its
    class (authentication, quota, or service); [processed_docs] and the disk
    are as before. *)
Theorem process_provider_failure env path filename s chunks e msg :
  load_and_split (fitz env) = Ret chunks ->
  chunks <> [] ->
  embed env = Raise e ->
  provider_message e = Some msg ->
  process_document env path filename s =
    (Raise (ValueError msg), log_call (EvEmbed chunks) s).
Proof.
  intros Hsplit Hne Hembed Hmsg.
  rewrite process_document_spec, Hsplit.
  destruct chunks as [|c cs]; [done|]. cbn zeta.
  rewrite create_vectorstore_spec, Hembed. cbn zeta.
  by destruct e; try done; injection Hmsg as <-.
Qed.

(** [process_document] returns [True] exactly when the document has chunks,
    the embedding succeeds and the vector store is written. *)
Lemma process_document_true_iff env path filename s :
  (process_document env path filename s).1 = Ret true <->
  exists chunks,
    load_and_split (fitz env) = Ret chunks /\ chunks <> [] /\
    embed env = Ret tt /\ index_write env = Written.
Proof.
  split.
  - intros (chunks & ? & ? & ? & ? & _)%process_document_true.
    by exists chunks.
  - intros (chunks & ? & ? & ? & ?).
    by rewrite (process_document_returns_true split_text env path filename s
                  chunks).
Qed.

Lemma reraise_value_error_raises e s e' :
  (reraise_value_error e s).1 = Raise e' -> is_ValueError e' = true.
Proof. unfold reraise_value_error. destruct e; cbn; by intros [= <-]. Qed.

Lemma create_vectorstore_raises em w chunks path s e :
  (RAGChain.create_vectorstore em w chunks path s).1 = Raise e ->
  is_ValueError e = true.
Proof.
  rewrite create_vectorstore_spec. cbn zeta.
  destruct em as [[]|e0].
  - destruct w as [|e1|e1]; [done|apply reraise_value_error_raises..].
  - destruct e0; try apply reraise_value_error_raises; by intros [= <-].
Qed.

Lemma create_vectorstore_disk em w chunks path s p :
  p <> path ->
  disk (RAGChain.create_vectorstore em w chunks path s).2 !! p = disk s !! p.
Proof.
  intros Hne. rewrite create_vectorstore_spec. cbn zeta.
  destruct em as [[]|e].
  - destruct w as [|e|e];
      rewrite ?(proj2 (reraise_value_error_docs _ _)); state_simpl;
      rewrite ?lookup_insert_ne by done; done.
  - destruct e; rewrite ?(proj2 (reraise_value_error_docs _ _)); done.
Qed.

Lemma processed_state_disk w path filename chunks s :
  disk (processed_state w path filename chunks s) =
    let d := <[index_of filename := IndexFile chunks]> (disk s) in
    match w with
    | Written =>
        <[metadata_path :=
            MetaFile (processed_docs
                        (processed_state w path filename chunks s))]> d
    | OpenFails _ => d
    | DumpFails _ => <[metadata_path := RawFile]> d
    end.
Proof.
  rewrite processed_state_docs.
  unfold processed_state, index_of. cbn zeta. rewrite save_metadata_spec.
  by destruct w.
Qed.

(** X8. [process_document] returns [True] exactly when the document has at
    least one chunk, the embedding succeeds and the vector store is
    written; whether the metadata file can be written plays no part. *)
Theorem process_document_succeeds_iff env path filename s :
  (process_document env path filename s).1 = Ret true <->
  exists chunks,
    load_and_split (fitz env) = Ret chunks /\ chunks <> [] /\
    embed env = Ret tt /\ index_write env = Written.
Proof. apply process_document_true_iff. Qed.

(** X9. After a [process_document] that returned [True], the record of the
    document holds the path given, the path of its vector store and the
    number of its chunks, which is at least 1; the vector store on disk is
    made of these chunks; and the keys are as before when the document was
    known, with the document added at the end when it was not. *)
Theorem process_document_record env path filename s :
  (process_document env path filename s).1 = Ret true ->
  let s' := (process_document env path filename s).2 in
  exists chunks,
    load_and_split (fitz env) = Ret chunks /\
    (1 <= length chunks)%nat /\
    dict_get filename (processed_docs s') =
      Some {| file_path := path;
              vectorstore_path := index_of filename;
              chunks_count := length chunks;
              status := lit "processed" |} /\
    disk s' !! index_of filename = Some (IndexFile chunks) /\
    dict_keys (processed_docs s') =
      if dict_mem filename (processed_docs s)
      then dict_keys (processed_docs s)
      else dict_keys (processed_docs s) ++ [filename].
Proof.
  intros (chunks & Hsplit & Hne & _ & _ & Hs')%process_document_true s'.
  subst s'. rewrite Hs'. exists chunks. split; [done|].
  split; [destruct chunks; [done|cbn; lia]|].
  rewrite processed_state_docs, processed_state_disk, dict_get_set,
    dict_keys_set.
  split; [done|]. split; [|done]. cbn zeta.
  destruct (meta_write env);
    rewrite ?lookup_insert_ne
      by (symmetry; apply vectorstore_path_not_metadata);
    apply lookup_insert_eq.
Qed.


Lemma process_document_failed_disk env path filename s p :
  (process_document env path filename s).1 <> Ret true ->
  p <> index_of filename ->
  disk (process_document env path filename s).2 !! p = disk s !! p.
Proof.
  intros Hnot Hp. rewrite process_document_spec in Hnot |- *.
  destruct (load_and_split (fitz env)) as [[|c cs]|e0]; [done| |].
  - cbn zeta in Hnot |- *.
    pose proof (create_vectorstore_disk (embed env) (index_write env)
      (c :: cs) (index_of filename) s p Hp) as Hcreate.
    unfold index_of in Hcreate.
    destruct (RAGChain.create_vectorstore _ _ _ _ s) as [[[]|e1] s1];
      cbn [fst snd] in *; [done|done|].
    by rewrite (proj2 (reraise_value_error_docs e1 s1)).
  - by rewrite (proj2 (reraise_value_error_docs e0 s)).
Qed.

(** X11. [process_document] touches no record but the one of the document
    and no file but the vector store of the document and the metadata file;
    when it does not return [True] it touches neither [processed_docs] nor
    the metadata file. *)
Theorem process_document_frame env path filename s :
  let r := process_document env path filename s in
  (forall g, g <> filename ->
     dict_get g (processed_docs r.2) = dict_get g (processed_docs s)) /\
  (forall p, p <> index_of filename -> p <> metadata_path ->
     disk r.2 !! p = disk s !! p) /\
  (r.1 <> Ret true ->
   processed_docs r.2 = processed_docs s /\
   disk r.2 !! metadata_path = disk s !! metadata_path).
Proof.
  intros r. subst r.
  assert (Hcases : (process_document env path filename s).1 = Ret true \/
                   (process_document env path filename s).1 <> Ret true)
    by (destruct (process_document env path filename s).1 as [[]|];
        [by left|by right..]).
  destruct Hcases as [Hret|Hnot].
  - destruct (process_document_true split_text env path filename s Hret)
      as (chunks & _ & _ & _ & _ & ->).
    rewrite processed_state_docs, processed_state_disk. cbn zeta.
    split; [intros g Hg; by apply dict_get_set_ne|].
    split; [|done].
    intros p Hp Hm.
    destruct (meta_write env); rewrite ?lookup_insert_ne by done; done.
  - rewrite (process_document_not_true split_text env path filename s Hnot).
    split; [done|].
    split; [by intros p Hp _; apply process_document_failed_disk|].
    intros _. split; [done|].
    apply process_document_failed_disk; [done|].
    symmetry. apply vectorstore_path_not_metadata.
Qed.

(** X12. [delete_document] never raises and makes no provider call. It
    touches no record but the one of the document, and the keys that stay
    keep their order; it touches no file but the two artifacts of the
    document and the metadata file. *)
Theorem delete_document_frame env filename s :
  let r := delete_document env filename s in
  exists deleted : bool,
    r.1 = Ret deleted /\
    calls r.2 = calls s /\
    (forall g, g <> filename ->
       dict_get g (processed_docs r.2) = dict_get g (processed_docs s)) /\
    dict_keys (processed_docs r.2) =
      (if deleted
       then filter (fun g => g <> filename) (dict_keys (processed_docs s))
       else dict_keys (processed_docs s)) /\
    (forall p,
       (forall info,
          dict_get filename (processed_docs s) = Some info ->
          p <> vectorstore_path info /\ p <> file_path info) ->
       p <> metadata_path ->
       disk r.2 !! p = disk s !! p).
Proof.
  intros r. subst r. rewrite delete_document_spec.
  destruct (dict_get filename (processed_docs s)) as [info|] eqn:Hget;
    [|by exists false].
  cbn zeta.
  assert (Htrue :
    let s' := deleted_state (del_meta_write env) filename info s in
    calls s' = calls s /\
    (forall g, g <> filename ->
       dict_get g (processed_docs s') = dict_get g (processed_docs s)) /\
    dict_keys (processed_docs s') =
      filter (fun g => g <> filename) (dict_keys (processed_docs s)) /\
    (forall p,
       (forall info',
          Some info = Some info' ->
          p <> vectorstore_path info' /\ p <> file_path info') ->
       p <> metadata_path ->
       disk s' !! p = disk s !! p)).
  { cbn zeta. rewrite deleted_state_docs, deleted_state_disk.
    split; [unfold deleted_state; cbn zeta; rewrite save_metadata_spec;
            by destruct (del_meta_write env)|].
    split; [by intros g Hg; apply dict_get_del_ne|].
    split; [apply dict_keys_del|].
    intros p Hp Hm. destruct (Hp info eq_refl) as [Hv Hf]. cbn zeta.
    destruct (del_meta_write env);
      rewrite ?lookup_insert_ne by done;
      by rewrite !lookup_delete_ne by done. }
  state_simpl.
  destruct (disk s !! vectorstore_path info), (rm_vectorstore env);
    try (by exists false).
  all: destruct (delete _ _ !! file_path info), (rm_file env);
    try (by exists true).
  all: exists false; state_simpl; repeat split; try done.
  all: intros p Hp _; destruct (Hp info eq_refl) as [Hv _];
    by rewrite lookup_delete_ne.
Qed.

(** [query_loaded] changes nothing but the provider calls, to which it adds
    at most the call of the retrieval chain. *)
Lemma query_loaded_frame env question filename s :
  let r := query_loaded env question filename s in
  processed_docs r.2 = processed_docs s /\
  disk r.2 = disk s /\
  (calls r.2 = calls s \/
   exists index, calls r.2 = calls s ++ [EvQA question index]).
Proof.
  cbn zeta. unfold query_loaded.
  destruct (resolved_filename filename (processed_docs s)) as [[|c f]|];
    try (by repeat split; try left).
  destruct (dict_get (c :: f) (processed_docs s)) as [info|];
    [|by repeat split; try left].
  destruct (disk s !! vectorstore_path info) as [g|] eqn:Hg;
    [|by repeat split; try left].
  rewrite rag_query_spec, Hg.
  destruct (index_read env); [|by repeat split; try left].
  destruct g as [index| |]; try (by repeat split; try left).
  cbn zeta.
  destruct (qa env) as [result|e]; [|destruct e];
    (split; [done|]); (split; [done|]); right; by exists index.
Qed.

(** X13. [query_document] never writes to the disk and never calls the
    embedding of chunks; it makes at most one provider call, the one of
    the retrieval chain for the question; and it leaves [processed_docs] as
    it is unless it is empty. *)
Theorem query_document_frame env question filename s :
  let r := query_document env question filename s in
  disk r.2 = disk s /\
  (processed_docs s <> [] -> processed_docs r.2 = processed_docs s) /\
  (calls r.2 = calls s \/
   exists index, calls r.2 = calls s ++ [EvQA question index]).
Proof.
  cbn zeta. rewrite query_document_spec.
  destruct (query_loaded_frame env question filename
              (load_if_empty (meta_read env) s).2) as (Hdocs & Hdisk & Hcalls).
  rewrite Hdocs, Hdisk, load_if_empty_disk.
  rewrite load_if_empty_calls in Hcalls.
  split; [done|]. split; [|done].
  intros Hne. by rewrite load_if_empty_nonempty.
Qed.


(** X15. When the document a query addresses is known, its vector store is
    on disk and readable, and the retrieval chain answers, [query_document]
    returns the answer of the chain, the caller-facing copies of the
    documents it retrieved, and the name of the document; the one provider
    call is recorded. *)
Theorem query_document_answers env question filename s f info index result :
  let s1 := (load_if_empty (meta_read env) s).2 in
  resolved_filename filename (processed_docs s1) = Some f ->
  f <> [] ->
  dict_get f (processed_docs s1) = Some info ->
  disk s1 !! vectorstore_path info = Some (IndexFile index) ->
  index_read env = ReadOk ->
  qa env = Ret result ->
  query_document env question filename s =
    (Ret {| answer := RAGChain.qa_answer result;
            sources :=
              sources_of (default [] (RAGChain.source_documents result));
            document := f |},
     log_call (EvQA question index) s1).
Proof.
  intros s1 Hres Hf Hget Hdisk Hread Hqa.
  rewrite query_document_spec. fold s1. unfold query_loaded.
  rewrite Hres. destruct f as [|c f]; [done|].
  by rewrite Hget, Hdisk, rag_query_spec, Hdisk, Hread, Hqa.
Qed.

(** X16. When the retrieval chain raises an exception of the provider,
    [query_document] raises the [ValueError] with the message of its class
    (authentication, quota, or service). *)
Theorem query_provider_failure env question filename s f info index e msg :
  let s1 := (load_if_empty (meta_read env) s).2 in
  resolved_filename filename (processed_docs s1) = Some f ->
  f <> [] ->
  dict_get f (processed_docs s1) = Some info ->
  disk s1 !! vectorstore_path info = Some (IndexFile index) ->
  index_read env = ReadOk ->
  qa env = Raise e ->
  provider_message e = Some msg ->
  query_document env question filename s =
    (Raise (ValueError msg), log_call (EvQA question index) s1).
Proof.
  intros s1 Hres Hf Hget Hdisk Hread Hqa Hmsg.
  rewrite query_document_spec. fold s1. unfold query_loaded.
  rewrite Hres. destruct f as [|c f]; [done|].
  rewrite Hget, Hdisk, rag_query_spec, Hdisk, Hread, Hqa. cbn zeta.
  by destruct e; try done; injection Hmsg as <-.
Qed.

Lemma load_metadata_spec r s :
  _load_metadata r s =
    (Ret tt,
     match disk s !! metadata_path with
     | Some _ => set_docs (loaded_docs r s) s
     | None => s
     end).
Proof.
  unfold _load_metadata, read_metadata, path_exists, loaded_docs.
  cbv beta delta [bind try_except ret raise modify].
  destruct (disk s !! metadata_path) as [f|] eqn:Hf.
  - rewrite bool_decide_eq_true_2 by eauto.
    destruct r; [|done]. rewrite Hf. by destruct f.
  - by rewrite bool_decide_eq_false_2 by (by intros [? ?]).
Qed.

Lemma get_processed_documents_spec r s :
  let docs :=
    match processed_docs s with
    | [] => loaded_docs r s
    | _ => processed_docs s
    end in
  get_processed_documents r s = (Ret (dict_keys docs), set_docs docs s).
Proof.
  cbn zeta. unfold get_processed_documents, load_if_empty.
  cbv [bind get_state ret].
  destruct s as [docs d c]. cbn [processed_docs].
  destruct docs as [|kv docs]; [|done].
  rewrite load_metadata_spec. unfold loaded_docs. cbn [disk].
  by destruct (d !! metadata_path) as [[]|], r.
Qed.


(** X18. After a [process_document] or a [delete_document] that returned
    [True] and whose metadata write succeeded, the metadata file holds
    [processed_docs]: a handler started anew on the same disk lists the
    same documents in the same order, and finds the same records. *)
Theorem restart_after_saved_change o s :
  returns_true o s = true ->
  meta_write_of o = Some Written ->
  let s' := exec o s in
  disk s' !! metadata_path = Some (MetaFile (processed_docs s')) /\
  get_processed_documents ReadOk (restart s') =
    (Ret (dict_keys (processed_docs s')), s').
Proof.
  intros Htrue Hwrite s'.
  assert (Hmeta : disk s' !! metadata_path
                    = Some (MetaFile (processed_docs s'))).
  { subst s'. destruct o as [env path f|env f| |]; try done;
      cbn [Run.exec Run.returns_true meta_write_of] in *;
      injection Hwrite as Hwrite.
    - destruct (process_document env path f s).1 as [[]|] eqn:Hret;
        try done.
      destruct (process_document_true split_text env path f s Hret)
        as (chunks & _ & _ & _ & _ & ->).
      rewrite processed_state_disk, Hwrite. cbn zeta.
      apply lookup_insert_eq.
    - rewrite delete_document_spec in Htrue |- *.
      destruct (dict_get f (processed_docs s)) as [info|]; [|done].
      cbn zeta in Htrue |- *. state_simpl.
      destruct (disk s !! vectorstore_path info), (rm_vectorstore env);
        try done.
      all: destruct (delete _ _ !! file_path info), (rm_file env); try done.
      all: cbn [snd]; rewrite deleted_state_disk, deleted_state_docs, Hwrite;
        cbn zeta; apply lookup_insert_eq. }
  split; [done|].
  rewrite get_processed_documents_spec.
  unfold restart, loaded_docs. state_simpl. rewrite Hmeta.
  by destruct s'.
Qed.

(** X19. [process_document] never loads the metadata file. For a handler
    that knows no document (as one just started), whatever the metadata
    file holds, a call that returns [True] and saves leaves in the file the
    record of the new document alone. *)
Theorem process_document_on_fresh_handler env path filename s :
  processed_docs s = [] ->
  (process_document env path filename s).1 = Ret true ->
  meta_write env = Written ->
  let s' := (process_document env path filename s).2 in
  dict_keys (processed_docs s') = [filename] /\
  disk s' !! metadata_path = Some (MetaFile (processed_docs s')).
Proof.
  intros Hfresh Hret Hwrite s'. subst s'.
  destruct (process_document_true split_text env path filename s Hret)
    as (chunks & _ & _ & _ & _ & ->).
  rewrite processed_state_disk, !processed_state_docs, Hwrite, Hfresh.
  cbn zeta. split; [done|]. apply lookup_insert_eq.
Qed.

End FurtherProperties.

(** ** The endpoints, continued *)

Lemma upload_path_not_index (filename g : str) :
  upload filename <> index_of g.
Proof. unfold upload, index_of. intros H. vm_compute in H. discriminate. Qed.

Lemma upload_path_not_metadata (filename : str) :
  upload filename <> DocumentHandler.metadata_path.
Proof. unfold upload. intros H. vm_compute in H. discriminate. Qed.

Section FurtherEndpoints.
Variable split_text : str -> result (list str).
Variable enoent_msg : str -> str.
Variable repr_keys : list str -> str.
Variable str_lower : str -> str.
Variable eval_error : str -> result (option str).
Variable str_http : Z -> str -> str.

Local Abbreviation process_pdf :=
  (Main.process_pdf split_text str_lower str_http).
Local Abbreviation post_query :=
  (Main.query_document enoent_msg repr_keys str_lower eval_error str_http).
Local Abbreviation process_document :=
  (DocumentHandler.process_document split_text).
Local Abbreviation query_document :=
  (DocumentHandler.query_document enoent_msg repr_keys).

Lemma value_error_status_range msg :
  value_error_status str_lower msg ∈ [401; 429; 503]%Z.
Proof.
  unfold value_error_status. repeat case_match; rewrite !elem_of_cons; auto.
Qed.

Lemma upload_error_status_range e :
  upload_error_status str_lower e ∈ [401; 429; 500; 503]%Z.
Proof.
  destruct e; cbn [upload_error_status];
    try (rewrite !elem_of_cons; by auto).
  pose proof (value_error_status_range msg) as H.
  rewrite !elem_of_cons in H.
  destruct H as [->|[->|[->|H]]]; [| | |by apply elem_of_nil in H];
    rewrite !elem_of_cons; auto.
Qed.

(** The clauses [except] of [process_pdf], by cases. *)
Lemma process_pdf_spec env filename s :
  let on_error (e : exn) : exn :=
    match e with
    | ValueError msg =>
        HTTPException (value_error_status str_lower msg) msg
    | _ =>
        HTTPException 500
          (lit "Error processing PDF: " ++ Main.str_exn str_http e)
    end in
  process_pdf env filename s =
    if Main.endswith (lit ".pdf") filename then
      match write_file (Main.upload_write env) (upload filename) RawFile s with
      | (Raise e, s1) => (Raise (on_error e), s1)
      | (Ret _, s1) =>
          match process_document (Main.processing env) (upload filename)
                  filename s1 with
          | (Ret true, s2) =>
              (Ret {| Main.body_message :=
                        lit "PDF '" ++ filename
                        ++ lit "' processed successfully";
                      Main.body_name := filename;
                      Main.body_status := lit "ready" |}, s2)
          | (Ret false, s2) =>
              (Raise (on_error
                        (HTTPException 500 (lit "Failed to process PDF"))),
               s2)
          | (Raise e, s2) => (Raise (on_error e), s2)
          end
      end
    else
      (Raise (on_error
                (HTTPException 400 (lit "Only PDF files are allowed"))), s).
Proof.
  cbn zeta. unfold Main.process_pdf, value_error_status, upload.
  cbv beta delta [bind try_except ret raise].
  destruct (Main.endswith (lit ".pdf") filename); cbn [negb]; [|done].
  destruct (write_file _ _ _ s) as [[[]|e] s1].
  - destruct (DocumentHandler.process_document _ _ _ _ s1) as [[[]|e] s2];
      [done|done|].
    destruct e; cbn [is_ValueError Main.str_exn]; try done.
    by repeat case_match.
  - destruct e; cbn [is_ValueError Main.str_exn]; try done.
    by repeat case_match.
Qed.

(** X20. [POST /process-pdf] for a file whose name does not end in [.pdf]:
    the [HTTPException] with status 400 is raised inside the [try] block
    and caught by [except Exception], so the response has status 500;
    nothing is written and nothing is processed. *)
Theorem process_pdf_wrong_extension env filename s :
  Main.endswith (lit ".pdf") filename = false ->
  process_pdf env filename s =
    (Raise (HTTPException 500
              (lit "Error processing PDF: "
               ++ str_http 400 (lit "Only PDF files are allowed"))), s).
Proof. intros H. by rewrite process_pdf_spec, H. Qed.

(** X21. The status of the response of [POST /process-pdf] is 200, 401,
    429, 500 or 503, whatever the upload and whatever fails: it is never
    400. *)
Theorem process_pdf_status env filename s :
  Main.http_status (process_pdf env filename s).1
    ∈ [200; 401; 429; 500; 503]%Z.
Proof.
  rewrite process_pdf_spec. cbn zeta.
  assert (Herr : forall e : exn,
    Main.http_status
      (@Raise Main.process_body
         match e with
         | ValueError msg =>
             HTTPException (value_error_status str_lower msg) msg
         | _ => HTTPException 500
                  (lit "Error processing PDF: " ++ Main.str_exn str_http e)
         end) ∈ [200; 401; 429; 500; 503]%Z).
  { intros e.
    destruct e; cbn [Main.http_status]; try (rewrite !elem_of_cons; by auto 10).
    pose proof (value_error_status_range msg) as H.
    rewrite !elem_of_cons in H.
    destruct H as [->|[->|[->|H]]]; [| | |by apply elem_of_nil in H];
      rewrite !elem_of_cons; auto 10. }
  destruct (Main.endswith (lit ".pdf") filename);
    [|exact (Herr (HTTPException 400 (lit "Only PDF files are allowed")))].
  destruct (write_file _ _ _ s) as [[[]|e] s1]; [|exact (Herr e)].
  destruct (process_document _ _ _ s1) as [[[]|e] s2];
    [|exact (Herr (HTTPException 500 (lit "Failed to process PDF")))
     |exact (Herr e)].
  cbn [fst Main.http_status]. rewrite !elem_of_cons. auto 10.
Qed.

Lemma write_file_written path content s :
  write_file Written path content s =
    (Ret tt, set_disk (<[path := content]> (disk s)) s).
Proof. done. Qed.

(** X22. [POST /process-pdf] for a [.pdf] upload that is copied and whose
    processing returns [True]: the response has status 200 and names the
    file; the upload is on disk under [uploaded_files]; and the document has
    a record that points to the upload and to its vector store. *)
Theorem process_pdf_success env filename s :
  Main.endswith (lit ".pdf") filename = true ->
  Main.upload_write env = Written ->
  (process_document (Main.processing env) (upload filename) filename
     (uploaded filename s)).1 = Ret true ->
  let r := process_pdf env filename s in
  r.1 = Ret {| Main.body_message :=
                 lit "PDF '" ++ filename ++ lit "' processed successfully";
               Main.body_name := filename;
               Main.body_status := lit "ready" |} /\
  Main.http_status r.1 = 200%Z /\
  disk r.2 !! upload filename = Some RawFile /\
  exists info,
    dict_get filename (processed_docs r.2) = Some info /\
    file_path info = upload filename /\
    vectorstore_path info = index_of filename.
Proof.
  intros Hpdf Hwrite Hret r. subst r.
  rewrite process_pdf_spec, Hpdf, Hwrite, write_file_written. cbn zeta.
  fold (uploaded filename s).
  destruct (process_document_true split_text _ _ _ _ Hret)
    as (chunks & _ & _ & _ & _ & Hs').
  destruct (process_document _ _ _ (uploaded filename s)) as [r s'].
  cbn [fst snd] in *. subst r s'. cbn [fst snd].
  split; [done|]. split; [done|].
  rewrite processed_state_disk, processed_state_docs, dict_get_set.
  split; [|by eexists]. cbn zeta.
  assert (Hup : <[index_of filename := IndexFile chunks]>
                  (disk (uploaded filename s)) !! upload filename
                = Some RawFile).
  { rewrite lookup_insert_ne by (symmetry; apply upload_path_not_index).
    unfold uploaded. state_simpl. apply lookup_insert_eq. }
  destruct (DocumentHandler.meta_write (Main.processing env));
    rewrite ?lookup_insert_ne by (symmetry; apply upload_path_not_metadata);
    exact Hup.
Qed.

(** X23. [POST /process-pdf] for a [.pdf] upload that is copied and whose
    processing does not return [True] (it returns [False] or raises): the
    response has status 401, 429, 500 or 503, no record is added or
    changed, and the upload stays on disk. *)
Theorem process_pdf_failure_keeps_upload env filename s :
  Main.endswith (lit ".pdf") filename = true ->
  Main.upload_write env = Written ->
  (process_document (Main.processing env) (upload filename) filename
     (uploaded filename s)).1 <> Ret true ->
  let r := process_pdf env filename s in
  Main.http_status r.1 ∈ [401; 429; 500; 503]%Z /\
  processed_docs r.2 = processed_docs s /\
  disk r.2 !! upload filename = Some RawFile.
Proof.
  intros Hpdf Hwrite Hnot r. subst r.
  rewrite process_pdf_spec, Hpdf, Hwrite, write_file_written. cbn zeta.
  fold (uploaded filename s).
  pose proof (process_document_not_true split_text _ _ _ _ Hnot) as Hdocs.
  pose proof (process_document_failed_disk split_text _ _ _ _
                (upload filename) Hnot (upload_path_not_index _ _)) as Hdisk.
  destruct (process_document _ _ _ (uploaded filename s)) as [[[]|e] s'];
    cbn [fst snd] in *; [done| |].
  - split; [rewrite !elem_of_cons; auto 10|].
    split; [done|]. rewrite Hdisk. unfold uploaded. state_simpl.
    apply lookup_insert_eq.
  - split.
    + destruct e; cbn [Main.http_status];
        try (rewrite !elem_of_cons; by auto 10).
      pose proof (value_error_status_range msg) as H.
      rewrite !elem_of_cons in H.
      destruct H as [->|[->|[->|H]]]; [| | |by apply elem_of_nil in H];
        rewrite !elem_of_cons; auto 10.
    + split; [done|]. rewrite Hdisk. unfold uploaded. state_simpl.
      apply lookup_insert_eq.
Qed.

(** With Python's [str.lower], the message of each class of provider
    failure gets the status code of its class, and none starts with a
    brace. *)
Lemma provider_message_status e msg code :
  lowers_ascii str_lower ->
  provider_message e = Some msg ->
  provider_status e = Some code ->
  value_error_status str_lower msg = code /\
  Main.startswith (lit "{") msg = false.
Proof.
  intros Hlower Hmsg Hcode. unfold value_error_status.
  destruct e; try done; injection Hmsg as <-; injection Hcode as <-;
    rewrite Hlower by (vm_compute; reflexivity); vm_compute; done.
Qed.

(** X24. [POST /process-pdf] gives a failure of the provider during the
    embedding the status of its class: 401 for an authentication error, 429
    for a rate limit error, 503 for any other error of the provider. *)
Theorem process_pdf_provider_status env filename s chunks e code :
  lowers_ascii str_lower ->
  Main.endswith (lit ".pdf") filename = true ->
  Main.upload_write env = Written ->
  PDFLoader.load_and_split split_text
    (DocumentHandler.fitz (Main.processing env)) = Ret chunks ->
  chunks <> [] ->
  DocumentHandler.embed (Main.processing env) = Raise e ->
  provider_status e = Some code ->
  Main.http_status (process_pdf env filename s).1 = code.
Proof.
  intros Hlower Hpdf Hwrite Hsplit Hne Hembed Hcode.
  assert (exists msg, provider_message e = Some msg) as [msg Hmsg]
    by (destruct e; try done; by eexists).
  destruct (provider_message_status e msg code Hlower Hmsg Hcode) as [Hs _].
  rewrite process_pdf_spec, Hpdf, Hwrite, write_file_written. cbn zeta.
  rewrite process_document_spec, Hsplit.
  destruct chunks as [|c cs]; [done|]. cbn zeta.
  rewrite create_vectorstore_spec, Hembed. cbn zeta.
  destruct e; try done; injection Hmsg as <-;
    unfold reraise_value_error, raise;
    cbn [is_ValueError fst Main.http_status]; exact Hs.
Qed.

(** [POST /query] for a question that is not blank, by cases on what the
    handler does. *)
Lemma post_query_spec env request s :
  strip (Main.question request) <> [] ->
  post_query env request s =
    match query_document env (Main.question request)
            (Main.filename request) s with
    | (Ret response, s') =>
        (Ret {| Main.body_question := Main.question request;
                Main.body_answer := DocumentHandler.answer response;
                Main.body_sources := DocumentHandler.sources response;
                Main.body_filename := Main.filename request |}, s')
    | (Raise e, s') =>
        if is_ValueError e
        then Main.on_value_error str_lower eval_error str_http e s'
        else (Raise (HTTPException 500
                       (lit "Error querying document: "
                        ++ Main.str_exn str_http e)), s')
    end.
Proof.
  intros Hq. unfold Main.query_document.
  cbv beta delta [bind try_except ret raise].
  destruct (strip (Main.question request)); [done|]. cbn [truthy negb].
  destruct (DocumentHandler.query_document _ _ _ _ _ s) as [[r|e] s'];
    [done|]. by destruct (is_ValueError e).
Qed.

(** The clause [except ValueError] of [POST /query] for a message that does
    not start with a brace. *)
Lemma on_value_error_plain msg s :
  Main.startswith (lit "{") msg = false ->
  Main.on_value_error str_lower eval_error str_http (ValueError msg) s =
    (Raise (HTTPException (value_error_status str_lower msg) msg), s).
Proof.
  intros Hplain. unfold Main.on_value_error, value_error_status.
  cbv beta delta [bind lift raise]. cbn [Main.str_exn]. rewrite Hplain.
  change (default [] (Some msg)) with msg.
  destruct (Main.contains (lit "quota exceeded") (str_lower msg)); [done|].
  by destruct (Main.contains (lit "authentication") (str_lower msg)).
Qed.

(** X25. [POST /query] gives a failure of the provider in the retrieval
    chain the status of its class: 401 for an authentication error, 429 for
    a rate limit error, 503 for any other error of the provider. *)
Theorem post_query_provider_status env request s f info index e code :
  let s1 := (DocumentHandler.load_if_empty
               (DocumentHandler.meta_read env) s).2 in
  lowers_ascii str_lower ->
  strip (Main.question request) <> [] ->
  DocumentHandler.resolved_filename (Main.filename request)
    (processed_docs s1) = Some f ->
  f <> [] ->
  dict_get f (processed_docs s1) = Some info ->
  disk s1 !! vectorstore_path info = Some (IndexFile index) ->
  DocumentHandler.index_read env = ReadOk ->
  DocumentHandler.qa env = Raise e ->
  provider_status e = Some code ->
  Main.http_status (post_query env request s).1 = code.
Proof.
  intros s1 Hlower Hq Hres Hf Hget Hdisk Hread Hqa Hcode.
  assert (exists msg, provider_message e = Some msg) as [msg Hmsg]
    by (destruct e; try done; by eexists).
  destruct (provider_message_status e msg code Hlower Hmsg Hcode)
    as [Hs Hplain].
  rewrite post_query_spec, query_document_spec by done. fold s1.
  unfold query_loaded. rewrite Hres. destruct f as [|c f]; [done|].
  rewrite Hget, Hdisk, rag_query_spec, Hdisk, Hread, Hqa. cbn zeta.
  destruct e; try done; injection Hmsg as <-; cbn [is_ValueError];
    by rewrite on_value_error_plain.
Qed.


(** X27. [POST /query] for a question that is not blank and a document
    whose vector store is not on disk: the [FileNotFoundError] of the
    handler is not a [ValueError], and the response has status 500. *)
Theorem post_query_missing_index env request s f info :
  let s1 := (DocumentHandler.load_if_empty
               (DocumentHandler.meta_read env) s).2 in
  strip (Main.question request) <> [] ->
  DocumentHandler.resolved_filename (Main.filename request)
    (processed_docs s1) = Some f ->
  f <> [] ->
  dict_get f (processed_docs s1) = Some info ->
  disk s1 !! vectorstore_path info = None ->
  post_query env request s =
    (Raise (HTTPException 500
              (lit "Error querying document: "
               ++ (lit "Vectorstore missing for document: " ++ f))), s1).
Proof.
  intros s1 Hq Hres Hf Hget Hdisk.
  rewrite post_query_spec, query_document_spec by done. fold s1.
  unfold query_loaded. rewrite Hres. destruct f as [|c f]; [done|].
  by rewrite Hget, Hdisk.
Qed.

(** X28. [POST /query] for a question that is not blank, a document that is
    known and whose vector store is readable, and a retrieval chain that
    answers: the response has status 200 and carries the question, the
    answer of the chain, the sources, and the [filename] of the request as
    it was given (none when the request named no document, although the
    query was answered from the last one). *)
Theorem post_query_success env request s f info index result :
  let s1 := (DocumentHandler.load_if_empty
               (DocumentHandler.meta_read env) s).2 in
  strip (Main.question request) <> [] ->
  DocumentHandler.resolved_filename (Main.filename request)
    (processed_docs s1) = Some f ->
  f <> [] ->
  dict_get f (processed_docs s1) = Some info ->
  disk s1 !! vectorstore_path info = Some (IndexFile index) ->
  DocumentHandler.index_read env = ReadOk ->
  DocumentHandler.qa env = Ret result ->
  post_query env request s =
    (Ret {| Main.body_question := Main.question request;
            Main.body_answer := RAGChain.qa_answer result;
            Main.body_sources :=
              sources_of (default [] (RAGChain.source_documents result));
            Main.body_filename := Main.filename request |},
     log_call (EvQA (Main.question request) index) s1).
Proof.
  intros s1 Hq Hres Hf Hget Hdisk Hread Hqa.
  rewrite post_query_spec, query_document_spec by done. fold s1.
  unfold query_loaded. rewrite Hres. destruct f as [|c f]; [done|].
  by rewrite Hget, Hdisk, rag_query_spec, Hdisk, Hread, Hqa.
Qed.

End FurtherEndpoints.

(** * The further properties on sample runs *)

Ltac by_running := vm_compute; first [reflexivity | discriminate | done].

Lemma extracted_text_blank_iff_witness :
  (strip second_page_text = [] <-> second_page_text = []) /\
  (second_page_text = [] <->
   PDFLoader.extract_text_by_page (Ret [lit "   "; sample_page]) = []).
Proof.
  apply (extracted_text_blank_iff (Ret [lit "   "; sample_page])
           second_page_text).
  by_running.
Defined.

Lemma process_provider_failure_witness :
  process_document' process_quota_fails (upload doc_a) doc_a empty_state =
    (Raise (ValueError RAGChain.quota_msg),
     log_call (EvEmbed [sample_chunk]) empty_state).
Proof.
  apply (process_provider_failure sample_split process_quota_fails
           (upload doc_a) doc_a empty_state [sample_chunk]
           (RateLimitError (lit "You exceeded your quota")));
    by_running.
Defined.

Lemma process_document_record_witness :
  exists chunks,
    PDFLoader.load_and_split sample_split (DocumentHandler.fitz process_ok)
      = Ret chunks /\
    (1 <= length chunks)%nat /\
    dict_get doc_a
      (processed_docs
         (process_document' process_ok (upload doc_a) doc_a empty_state).2) =
      Some {| file_path := upload doc_a;
              vectorstore_path := index_of doc_a;
              chunks_count := length chunks;
              status := lit "processed" |} /\
    disk (process_document' process_ok (upload doc_a) doc_a empty_state).2
      !! index_of doc_a = Some (IndexFile chunks) /\
    dict_keys
      (processed_docs
         (process_document' process_ok (upload doc_a) doc_a empty_state).2) =
      if dict_mem doc_a (processed_docs empty_state)
      then dict_keys (processed_docs empty_state)
      else dict_keys (processed_docs empty_state) ++ [doc_a].
Proof.
  apply (process_document_record sample_split process_ok (upload doc_a) doc_a
           empty_state).
  by_running.
Defined.



Lemma query_document_answers_witness :
  query_document' query_ok (lit "What is X?") None one_document =
    (Ret {| DocumentHandler.answer := lit "X is a widget";
            DocumentHandler.sources :=
              sources_of (default [] (RAGChain.source_documents sample_qa));
            DocumentHandler.document := doc_a |},
     log_call (EvQA (lit "What is X?") [sample_chunk]) one_document).
Proof.
  apply (query_document_answers sample_enoent sample_repr query_ok
           (lit "What is X?") None one_document doc_a (sample_info doc_a)
           [sample_chunk] sample_qa); by_running.
Defined.

Lemma query_provider_failure_witness :
  query_document' query_quota_fails (lit "What is X?") None one_document =
    (Raise (ValueError RAGChain.quota_msg),
     log_call (EvQA (lit "What is X?") [sample_chunk]) one_document).
Proof.
  apply (query_provider_failure sample_enoent sample_repr query_quota_fails
           (lit "What is X?") None one_document doc_a (sample_info doc_a)
           [sample_chunk] (RateLimitError (lit "You exceeded your quota")));
    by_running.
Defined.

Lemma restart_after_saved_change_witness :
  let s' := Run.exec sample_split sample_enoent sample_repr
              (Run.Delete delete_ok doc_a) one_document in
  disk s' !! DocumentHandler.metadata_path
    = Some (MetaFile (processed_docs s')) /\
  DocumentHandler.get_processed_documents ReadOk (restart s') =
    (Ret (dict_keys (processed_docs s')), s').
Proof.
  apply (restart_after_saved_change sample_split sample_enoent sample_repr
           (Run.Delete delete_ok doc_a) one_document); by_running.
Defined.

Lemma process_document_on_fresh_handler_witness :
  let s' := (process_document' process_ok (upload doc_a) doc_a
               restarted_state).2 in
  disk restarted_state !! DocumentHandler.metadata_path
    = Some (MetaFile [(doc_b, sample_info doc_b)]) /\
  dict_keys (processed_docs s') = [doc_a] /\
  disk s' !! DocumentHandler.metadata_path
    = Some (MetaFile (processed_docs s')).
Proof.
  split; [by_running|].
  apply (process_document_on_fresh_handler sample_split process_ok
           (upload doc_a) doc_a restarted_state); by_running.
Defined.

Lemma process_pdf_wrong_extension_witness :
  process_pdf' upload_ok (lit "notes.txt") empty_state =
    (Raise (HTTPException 500
              (lit "Error processing PDF: "
               ++ sample_str_http 400 (lit "Only PDF files are allowed"))),
     empty_state).
Proof.
  apply (process_pdf_wrong_extension sample_split lower_ascii sample_str_http
           upload_ok (lit "notes.txt") empty_state).
  by_running.
Defined.

Lemma process_pdf_success_witness :
  let r := process_pdf' upload_ok doc_a empty_state in
  r.1 = Ret {| Main.body_message :=
                 lit "PDF '" ++ doc_a ++ lit "' processed successfully";
               Main.body_name := doc_a;
               Main.body_status := lit "ready" |} /\
  Main.http_status r.1 = 200%Z /\
  disk r.2 !! upload doc_a = Some RawFile /\
  exists info,
    dict_get doc_a (processed_docs r.2) = Some info /\
    file_path info = upload doc_a /\
    vectorstore_path info = index_of doc_a.
Proof.
  apply (process_pdf_success sample_split lower_ascii sample_str_http
           upload_ok doc_a empty_state); by_running.
Defined.

Lemma process_pdf_failure_keeps_upload_witness :
  let r := process_pdf' upload_auth_fails doc_a empty_state in
  Main.http_status r.1 ∈ [401; 429; 500; 503]%Z /\
  processed_docs r.2 = processed_docs empty_state /\
  disk r.2 !! upload doc_a = Some RawFile.
Proof.
  apply (process_pdf_failure_keeps_upload sample_split lower_ascii
           sample_str_http upload_auth_fails doc_a empty_state); by_running.
Defined.

Lemma lower_ascii_lowers : lowers_ascii lower_ascii.
Proof. by intros s _. Qed.

Lemma process_pdf_provider_status_witness :
  Main.http_status (process_pdf' upload_auth_fails doc_a empty_state).1
    = 401%Z.
Proof.
  apply (process_pdf_provider_status sample_split lower_ascii sample_str_http
           upload_auth_fails doc_a empty_state [sample_chunk]
           (AuthenticationError (lit "Incorrect API key provided")));
    [apply lower_ascii_lowers|by_running..].
Defined.

Lemma post_query_provider_status_witness :
  Main.http_status
    (post_query_lower query_quota_fails
       {| Main.question := lit "What is X?"; Main.filename := None |}
       one_document).1 = 429%Z.
Proof.
  apply (post_query_provider_status sample_enoent sample_repr lower_ascii
           sample_eval sample_str_http query_quota_fails
           {| Main.question := lit "What is X?"; Main.filename := None |}
           one_document doc_a (sample_info doc_a) [sample_chunk]
           (RateLimitError (lit "You exceeded your quota")));
    [apply lower_ascii_lowers|by_running..].
Defined.


Lemma post_query_missing_index_witness :
  post_query_lower query_ok
    {| Main.question := lit "What is X?"; Main.filename := Some doc_a |}
    index_missing_state =
    (Raise (HTTPException 500
              (lit "Error querying document: "
               ++ (lit "Vectorstore missing for document: " ++ doc_a))),
     index_missing_state).
Proof.
  apply (post_query_missing_index sample_enoent sample_repr lower_ascii
           sample_eval sample_str_http query_ok
           {| Main.question := lit "What is X?"; Main.filename := Some doc_a |}
           index_missing_state doc_a (sample_info doc_a)); by_running.
Defined.

Lemma post_query_success_witness :
  post_query_lower query_ok
    {| Main.question := lit "What is X?"; Main.filename := None |}
    one_document =
    (Ret {| Main.body_question := lit "What is X?";
            Main.body_answer := lit "X is a widget";
            Main.body_sources :=
              sources_of (default [] (RAGChain.source_documents sample_qa));
            Main.body_filename := None |},
     log_call (EvQA (lit "What is X?") [sample_chunk]) one_document).
Proof.
  apply (post_query_success sample_enoent sample_repr lower_ascii sample_eval
           sample_str_http query_ok
           {| Main.question := lit "What is X?"; Main.filename := None |}
           one_document doc_a (sample_info doc_a) [sample_chunk] sample_qa);
    by_running.
Defined.
